(** * rust-timeit: a shallow embedding of [src/main.rs] and [src/timeit.rs]

    The tool generates a criterion benchmark project from command-line
    fragments, writes it into a cache directory and runs [cargo bench]
    there.  Strings are Rust [&str]/[String] over bytes ([string] of
    [ascii]); the effects of [main] (file system, process spawning, the
    standard streams and [process::exit]) are a writer/exit monad over an
    environment that answers every system call. *)

From Stdlib Require Import String Ascii List Bool ZArith Lia.
Import ListNotations.
Open Scope string_scope.

(** ** Rust string operations *)

(** [str::replace] for a non-empty pattern: the matches of [from] are
    found left to right without overlap ([match_indices]), each one is
    replaced by [to].  [skip] counts the bytes of the current match that
    are still to be consumed. *)
Fixpoint replace_from (from to : string) (skip : nat) (s : string) : string :=
  match s with
  | EmptyString => EmptyString
  | String c s' =>
      match skip with
      | S n => replace_from from to n s'
      | O =>
          if prefix from s
          then to ++ replace_from from to (pred (String.length from)) s'
          else String c (replace_from from to 0 s')
      end
  end.

(** [str::replace] with the empty pattern matches at every char boundary. *)
Fixpoint replace_empty (to s : string) : string :=
  match s with
  | EmptyString => to
  | String c s' => to ++ String c (replace_empty to s')
  end.

(** [s.replace(from, to)] *)
Definition str_replace (s from to : string) : string :=
  match from with
  | EmptyString => replace_empty to s
  | String _ _ => replace_from from to 0 s
  end.

(** [slice.join(sep)] on a [Vec<String>] is [String.concat]. *)
Definition join (sep : string) (l : list string) : string := String.concat sep l.

Fixpoint has_char (c : ascii) (s : string) : bool :=
  match s with
  | EmptyString => false
  | String d s' => Ascii.eqb c d || has_char c s'
  end.

(** [haystack.contains(needle)] *)
Fixpoint contains (needle hay : string) : bool :=
  match hay with
  | EmptyString => prefix needle hay
  | String _ hay' => prefix needle hay || contains needle hay'
  end.

Fixpoint last_char (s : string) : option ascii :=
  match s with
  | EmptyString => None
  | String c EmptyString => Some c
  | String _ s' => last_char s'
  end.

(** A separator of a template that no match of [k] can straddle: it is
    non-empty and its first and last bytes do not occur in [k]. *)
Definition guarded (k t : string) : bool :=
  match t, last_char t with
  | String c _, Some c' => negb (has_char c k) && negb (has_char c' k)
  | _, _ => false
  end.

(** [t0 ++ x1 ++ t1 ++ x2 ++ t2 ++ ...]: template text [t0, t1, ...]
    around the slots [x1, x2, ...]. *)
Definition fill (t0 : string) (rest : list (string * string)) : string :=
  t0 ++ fold_right (fun xt acc => fst xt ++ snd xt ++ acc) EmptyString rest.

(** ** Constants of [main.rs] *)

Definition quote : string := String (ascii_of_nat 34) EmptyString.

Definition BASE : string := "timeit".
Definition BASE_DIR : string := "rust-timeit".

Definition CYCLES_DEP : string :=
  "criterion-cycles-per-byte = " ++ quote ++ "0.1.2" ++ quote.
Definition PERF_DEP : string := "criterion-linux-perf = " ++ quote ++ "0.1" ++ quote.
Definition CYCLES_USE : string := "criterion_cycles_per_byte::CyclesPerByte".
Definition PERF_USE : string := "criterion_linux_perf::{PerfMeasurement, PerfMode}".

(** [TIMEIT_RS = include_str!("timeit.rs")]: [src/timeit.rs] byte for byte
    (the file has no final newline). *)
Definition TIMEIT_RS : string :=
"#![allow(unused_imports)]
#![allow(redundant_semicolons)]

use criterion::{
    black_box, criterion_group, criterion_main,
    measurement::{Measurement, WallTime},
    Criterion,
};

/*USES*/

/*INCLUDES*/

fn timeit<T: 'static + Measurement>(_crit: &mut Criterion<T>) {
    /*SETUP*/

    /*EXPRESSIONS*/
}

criterion_group!(
    name = benches;
    config = Criterion::default().with_measurement(/*TIMER*/);
    targets = timeit
);
criterion_main!(benches);".

(** Modelled from the spec: [src/expression.rs], the snippet template
    included as [TIMEIT_EXPRESSION], is not available.  The spec gives it one
    marker for the optional black-box wrapper and one for the literal
    expression text, and separates consecutive snippets by a blank line,
    which [join("\n")] yields when the file ends in a newline.  The text
    around the markers is a stand-in. *)
Definition TIMEIT_EXPRESSION : string :=
"    b.iter(|| /*BLACK_BOX*/(/*EXPRESSION*/));
".

(** Modelled from the spec: [src/Cargo.toml.tmpl], included as [CARGO_TOML],
    is not available.  The spec gives it a project-name marker and a
    dependency-block marker; the text around them is a stand-in. *)
Definition CARGO_TOML : string :=
  "[package]
name = " ++ quote ++ "@BASE@" ++ quote ++ "

[dependencies]
@DEPENDENCIES@
".

(** ** [PerfMode], generated by [perf_mode!] *)

Inductive PerfMode :=
| Cycles | Instructions | Branches | BranchMisses
| CacheRefs | CacheMisses | BusCycles | RefCycles.

(** The macro's table [$ident => $word], in order. *)
Definition perf_mode_table : list (PerfMode * string) :=
  [(Cycles, "cycles"); (Instructions, "instructions"); (Branches, "branches");
   (BranchMisses, "branch-misses"); (CacheRefs, "cache-refs");
   (CacheMisses, "cache-misses"); (BusCycles, "bus-cycles");
   (RefCycles, "ref-cycles")].

(** [as_perf_mode] is [stringify!($ident)]. *)
Definition as_perf_mode (m : PerfMode) : string :=
  match m with
  | Cycles => "Cycles" | Instructions => "Instructions"
  | Branches => "Branches" | BranchMisses => "BranchMisses"
  | CacheRefs => "CacheRefs" | CacheMisses => "CacheMisses"
  | BusCycles => "BusCycles" | RefCycles => "RefCycles"
  end.

Definition all_modes : list string := map snd perf_mode_table.

(** The arms [$word => Ok(Self::$ident)] of [from_str], tried in order. *)
Fixpoint match_word (s : string) (tbl : list (PerfMode * string)) : option PerfMode :=
  match tbl with
  | [] => None
  | (m, w) :: tbl' => if String.eqb s w then Some m else match_word s tbl'
  end.

(** ** Effects *)

(** [std::io::ErrorKind], the kinds the tool can meet. *)
Inductive ErrorKind := NotFound | PermissionDenied | AlreadyExists | OtherKind.

Definition error_kind_name (k : ErrorKind) : string :=
  match k with
  | NotFound => "NotFound" | PermissionDenied => "PermissionDenied"
  | AlreadyExists => "AlreadyExists" | OtherKind => "Other"
  end.

(** An OS [std::io::Error]: error number, kind and [strerror] text.  Like
    the Rust value it carries no path. *)
Record IoError := mkIoError {
  raw_os_error : nat;
  kind : ErrorKind;
  os_message : string
}.

Fixpoint digits (fuel n : nat) (acc : string) : string :=
  match fuel with
  | O => acc
  | S f =>
      let acc' := String (ascii_of_nat (48 + n mod 10)) acc in
      if Nat.ltb n 10 then acc' else digits f (n / 10) acc'
  end.

Definition nat_to_string (n : nat) : string := digits (S n) n EmptyString.

(** [format!("{:?}", error)] for an OS error. *)
Definition debug_io_error (e : IoError) : string :=
  "Os { code: " ++ nat_to_string (raw_os_error e) ++ ", kind: " ++
  error_kind_name (kind e) ++ ", message: " ++ quote ++ os_message e ++ quote ++ " }".

Inductive result (A E : Type) : Type :=
| Ok (a : A)
| Err (e : E).
Arguments Ok {A E} a.
Arguments Err {A E} e.

(** What the tool does to the outside world, in order. *)
Inductive event :=
| EvStdout (line : string)
| EvStderr (line : string)
| EvReadFile (path : string)
| EvRemoveDirAll (path : string)
| EvCreateDirAll (path : string)
| EvSetCurrentDir (path : string)
| EvCreateFile (path : string)
| EvWriteAll (path data : string)
| EvFlush (path : string)
| EvRename (from to : string)
| EvSpawn (program : string) (args : list string).

(** Events that only read or print: everything else creates, deletes or
    modifies a file or directory, changes directory or runs a process. *)
Definition passive (ev : event) : bool :=
  match ev with
  | EvStdout _ | EvStderr _ | EvReadFile _ => true
  | _ => false
  end.

(** Whether an event reads a file. *)
Definition is_read (ev : event) : bool :=
  match ev with
  | EvReadFile _ => true
  | _ => false
  end.

(** The answers of the operating system to each call. *)
Record Env := mkEnv {
  env_read_to_string : string -> result string IoError; (* File::open + read_to_string *)
  env_cache_dir : option string;                          (* dirs::cache_dir *)
  env_remove_dir_all : string -> result unit IoError;
  env_create_dir_all : string -> result unit IoError;
  env_set_current_dir : string -> result unit IoError;
  env_file_create : string -> result unit IoError;
  env_write_all : string -> string -> result unit IoError;
  env_flush : string -> result unit IoError;
  env_rename : string -> string -> result unit IoError;
  env_status : string -> list string -> result Z IoError  (* Command::status *)
}.

(** A step ends normally, with an [io::Error] propagated by [?], or by
    [process::exit] (or a panic). *)
Inductive outcome (A : Type) : Type :=
| Ret (a : A)
| Fail (e : IoError)
| Exit (code : Z).
Arguments Ret {A} a.
Arguments Fail {A} e.
Arguments Exit {A} code.

Definition M (A : Type) : Type := (outcome A * list event)%type.

Definition ret {A} (a : A) : M A := (Ret a, []).

Definition bind {A B} (m : M A) (f : A -> M B) : M B :=
  let (o, t) := m in
  match o with
  | Ret a => let (o', t') := f a in (o', (t ++ t')%list)
  | Fail e => (Fail e, t)
  | Exit c => (Exit c, t)
  end.

Notation "x <- m ;; k" := (bind m (fun x => k))
  (at level 61, m at next level, right associativity).
Notation "m ;; k" := (bind m (fun _ : unit => k))
  (at level 61, right associativity).

Definition println (s : string) : M unit := (Ret tt, [EvStdout s]).
Definition eprintln (s : string) : M unit := (Ret tt, [EvStderr s]).
Definition exit {A} (code : Z) : M A := (Exit code, []).

(** A system call followed by [?]. *)
Definition syscall {A} (ev : event) (r : result A IoError) : M A :=
  match r with
  | Ok a => (Ret a, [ev])
  | Err e => (Fail e, [ev])
  end.

(** A system call followed by [.ok()]: its failure is dropped. *)
Definition syscall_ok {A} (ev : event) (r : result A IoError) : M unit :=
  (Ret tt, [ev]).

Fixpoint iter_m {A} (f : A -> M unit) (l : list A) : M unit :=
  match l with
  | [] => ret tt
  | x :: l' => f x ;; iter_m f l'
  end.

(** [iter.map(f).collect::<Result<Vec<_>, _>>()]: stops at the first error. *)
Fixpoint collect_m {A B} (f : A -> M B) (l : list A) : M (list B) :=
  match l with
  | [] => ret []
  | x :: l' => y <- f x ;; ys <- collect_m f l' ;; ret (y :: ys)
  end.

(** [PerfMode::from_str]; ["help"] lists the modes and exits. *)
Definition from_str (s : string) : M (result PerfMode string) :=
  if String.eqb s "help" then
    eprintln "Valid values for --perf" ;;
    iter_m (fun mode => eprintln ("  " ++ mode)) all_modes ;;
    exit 1
  else
    match match_word s perf_mode_table with
    | Some m => ret (Ok m)
    | None => ret (Err "Unknown perf mode")
    end.

(** ** [struct Args] *)

(** The record argh builds, before [--perf]'s text is converted by
    [PerfMode::from_str] (target [linux], where the option exists). *)
Record RawArgs := mkRawArgs {
  raw_setup : option string;
  raw_dependency : list string;
  raw_uses : list string;
  raw_include : list string;
  raw_cycles : bool;
  raw_perf : option string;
  raw_black_box : bool;
  raw_fresh : bool;
  raw_cleanup : bool;
  raw_verbose : bool;
  raw_expression : list string
}.

Record Args := mkArgs {
  setup : option string;
  dependency : list string;
  uses : list string;
  include : list string;
  cycles : bool;
  perf : option PerfMode;
  black_box : bool;
  fresh : bool;
  cleanup : bool;
  verbose : bool;
  expression : list string
}.

Definition set_dependency (a : Args) (d : list string) : Args :=
  mkArgs (setup a) d (uses a) (include a) (cycles a) (perf a) (black_box a)
    (fresh a) (cleanup a) (verbose a) (expression a).

Definition set_uses (a : Args) (u : list string) : Args :=
  mkArgs (setup a) (dependency a) u (include a) (cycles a) (perf a) (black_box a)
    (fresh a) (cleanup a) (verbose a) (expression a).

Definition args_of_raw (r : RawArgs) (p : option PerfMode) : Args :=
  mkArgs (raw_setup r) (raw_dependency r) (raw_uses r) (raw_include r)
    (raw_cycles r) p (raw_black_box r) (raw_fresh r) (raw_cleanup r)
    (raw_verbose r) (raw_expression r).

(** [argh::from_env::<Args>()]: the [--perf] value goes through
    [from_str]; an [Err] makes argh report it and exit with status 1. *)
Definition from_env (r : RawArgs) : M Args :=
  let mk := args_of_raw r in
  match raw_perf r with
  | None => ret (mk None)
  | Some s =>
      res <- from_str s ;;
      match res with
      | Ok m => ret (mk (Some m))
      | Err msg =>
          eprintln ("Error parsing option '--perf' with value '" ++ s ++ "': " ++ msg) ;;
          exit 1
      end
  end.

(** [Args::dependencies(&mut self)]: pushes onto [self.dependency]. *)
Definition Args_dependencies (a : Args) : string * Args :=
  let d1 := if cycles a then (dependency a ++ [CYCLES_DEP])%list else dependency a in
  let d2 := match perf a with
            | Some _ => (d1 ++ [PERF_DEP])%list
            | None => d1
            end in
  (join "
" d2, set_dependency a d2).

(** [Args::uses(&mut self)]: pushes onto [self.uses]. *)
Definition Args_uses (a : Args) : string * Args :=
  let u1 := if cycles a then (uses a ++ [CYCLES_USE])%list else uses a in
  let u2 := match perf a with
            | Some _ => (u1 ++ [PERF_USE])%list
            | None => u1
            end in
  (join "" (map (fun import => "use " ++ import ++ ";" ++ "
") u2), set_uses a u2).

Definition Args_setup (a : Args) : string :=
  match setup a with
  | Some s => s ++ ";"
  | None => ""
  end.

(** One snippet: the two [replace] calls of [Args::expressions]. *)
Definition expand (black_box_flag : bool) (expr : string) : string :=
  let black_box := if black_box_flag then "black_box" else "" in
  str_replace (str_replace TIMEIT_EXPRESSION "/*BLACK_BOX*/" black_box)
    "/*EXPRESSION*/" expr.

Definition Args_expressions (a : Args) : string :=
  join "
" (map (expand (black_box a)) (expression a)).

Definition Args_timer (a : Args) : string :=
  match perf a with
  | Some mode => "PerfMeasurement::new(PerfMode::" ++ as_perf_mode mode ++ ")"
  | None => if cycles a then "CyclesPerByte" else "WallTime"
  end.

(** The text [create] writes: one [data.replace(key, value)] per pair, in
    order, each over the whole current text. *)
Definition create_data (template : string) (subst : list (string * string)) : string :=
  fold_left (fun data kv => str_replace data (fst kv) (snd kv)) subst template.

(** [PathBuf::push] on a Unix path. *)
Definition path_push (base name : string) : string := base ++ "/" ++ name.

(** The manifest and the benchmark source, as [main] generates them. *)
Definition manifest_text (a : Args) : string :=
  let (deps, _) := Args_dependencies a in
  create_data CARGO_TOML [("@DEPENDENCIES@", deps); ("@BASE@", BASE)].

Definition source_text (a : Args) (includes : string) : string :=
  let (_, a1) := Args_dependencies a in
  let (uses_text, a2) := Args_uses a1 in
  create_data TIMEIT_RS
    [("/*USES*/", uses_text); ("/*INCLUDES*/", includes);
     ("/*SETUP*/", Args_setup a2); ("/*EXPRESSIONS*/", Args_expressions a2);
     ("/*TIMER*/", Args_timer a2)].

Definition bench_cmdline (verbose_flag : bool) : list string :=
  (["bench"; "--bench"; "timeit"; "--"; "--noplot"] ++
   (if verbose_flag then ["--verbose"] else []))%list.

Section Main.
Variable env : Env.

(** [Args::includes]: read every file, stop at the first error. *)
Definition Args_includes (a : Args) : M string :=
  contents <- collect_m (fun filename =>
                syscall (EvReadFile filename) (env_read_to_string env filename))
              (include a) ;;
  ret (join "
" contents).

(** The local [remove_dir_all]: a missing directory is not an error. *)
Definition remove_dir_all (path : string) : M unit :=
  match env_remove_dir_all env path with
  | Err e =>
      match kind e with
      | NotFound => (Ret tt, [EvRemoveDirAll path])
      | _ => (Fail e, [EvRemoveDirAll path])
      end
  | Ok _ => (Ret tt, [EvRemoveDirAll path])
  end.

Definition create (filename template : string) (subst : list (string * string)) : M unit :=
  let tempname := filename ++ ".tmp" in
  let data := create_data template subst in
  syscall (EvCreateFile tempname) (env_file_create env tempname) ;;
  syscall (EvWriteAll tempname data) (env_write_all env tempname data) ;;
  syscall (EvFlush tempname) (env_flush env tempname) ;;
  syscall (EvRename tempname filename) (env_rename env tempname filename).

(** [dirs::cache_dir().expect(...)]: a panic exits with status 101. *)
Definition cache_dir_expect : M string :=
  match env_cache_dir env with
  | Some d => ret d
  | None => eprintln "Could not determine cache directory" ;; exit 101
  end.

(** [main] up to the end of the [cargo] run; returns the arguments and
    the cache directory for the final cleanup step. *)
Definition main_until_cleanup (r : RawArgs) : M (Args * string) :=
  args <- from_env r ;;
  match expression args with
  | [] => eprintln "Please specify at least one expression" ;; exit 1
  | _ :: _ =>
  if cycles args && match perf args with Some _ => true | None => false end then
    eprintln "Cannot specify both --cycles and --perf" ;; exit 1
  else
  includes <- Args_includes args ;;
  cache <- cache_dir_expect ;;
  let base_dir := path_push cache BASE_DIR in
  (if verbose args
   then println ("Using cache directory " ++ quote ++ base_dir ++ quote ++ ".")
   else ret tt) ;;
  (if fresh args
   then println "Deleting cache directory." ;; remove_dir_all base_dir
   else ret tt) ;;
  syscall (EvCreateDirAll base_dir) (env_create_dir_all env base_dir) ;;
  syscall (EvSetCurrentDir base_dir) (env_set_current_dir env base_dir) ;;
  syscall (EvCreateDirAll "benches") (env_create_dir_all env "benches") ;;
  let (deps, args1) := Args_dependencies args in
  create "Cargo.toml" CARGO_TOML [("@DEPENDENCIES@", deps); ("@BASE@", BASE)] ;;
  let (uses_text, args2) := Args_uses args1 in
  create ("benches/" ++ BASE ++ ".rs") TIMEIT_RS
    [("/*USES*/", uses_text); ("/*INCLUDES*/", includes);
     ("/*SETUP*/", Args_setup args2); ("/*EXPRESSIONS*/", Args_expressions args2);
     ("/*TIMER*/", Args_timer args2)] ;;
  syscall_ok (EvRemoveDirAll "target/criterion")
    (env_remove_dir_all env "target/criterion") ;;
  let cmdline := bench_cmdline (verbose args2) in
  _ <- syscall (EvSpawn "cargo" cmdline) (env_status env "cargo" cmdline) ;;
  ret (args2, base_dir)
  end.

(** The [if args.cleanup] step: [fs::remove_dir_all(&base_dir)?]. *)
Definition cleanup_step (args : Args) (base_dir : string) : M unit :=
  if cleanup args then
    println "Deleting cache directory." ;;
    syscall (EvRemoveDirAll base_dir) (env_remove_dir_all env base_dir)
  else ret tt.

Definition main (r : RawArgs) : M unit :=
  p <- main_until_cleanup r ;; cleanup_step (fst p) (snd p).

(** The process: [Ok(())] exits with 0, [Err(e)] prints [Error: {e:?}]
    and exits with 1, [process::exit(c)] exits with [c]. *)
Definition run (r : RawArgs) : list event * Z :=
  let (o, t) := main r in
  match o with
  | Ret _ => (t, 0%Z)
  | Fail e => ((t ++ [EvStderr ("Error: " ++ debug_io_error e)])%list, 1%Z)
  | Exit c => (t, c)
  end.
End Main.

(** The text of [src/timeit.rs] between its markers. *)
Definition timeit_rs_sep0 : string :=
"#![allow(unused_imports)]
#![allow(redundant_semicolons)]

use criterion::{
    black_box, criterion_group, criterion_main,
    measurement::{Measurement, WallTime},
    Criterion,
};

".

Definition timeit_rs_sep1 : string :=
"

".

Definition timeit_rs_sep2 : string :=
"

fn timeit<T: 'static + Measurement>(_crit: &mut Criterion<T>) {
    ".

Definition timeit_rs_sep3 : string :=
"

    ".

Definition timeit_rs_sep4 : string :=
"
}

criterion_group!(
    name = benches;
    config = Criterion::default().with_measurement(".

Definition timeit_rs_sep5 : string :=
");
    targets = timeit
);
criterion_main!(benches);".

(** The text of the modelled snippet template between its markers; the
    last piece ends in the newline the spec's blank line needs. *)
Definition expression_sep0 : string := "    b.iter(|| ".
Definition expression_sep1 : string := "(".
Definition expression_sep2 : string := "));
".

(** A snippet without its final newline. *)
Definition snippet_body (bb : bool) (e : string) : string :=
  expression_sep0 ++ (if bb then "black_box" else "") ++ expression_sep1 ++ e ++ "));".

(** ** Event properties used by the proofs *)

Definition spawn_ok (verbose_flag : bool) (ev : event) : Prop :=
  match ev with
  | EvSpawn prog argv => prog = "cargo" /\ argv = bench_cmdline verbose_flag
  | _ => True
  end.

(** Every write is one of the two generated artifacts, computed from the
    parsed arguments and the include text. *)
Definition write_ok (env : Env) (r : RawArgs) (ev : event) : Prop :=
  match ev with
  | EvWriteAll p d =>
      exists a inc, fst (from_env r) = Ret a /\ fst (Args_includes env a) = Ret inc /\
        ((p = "Cargo.toml.tmp" /\ d = manifest_text a) \/
         (p = "benches/timeit.rs.tmp" /\ d = source_text a inc))
  | _ => True
  end.

(** Everything printed, on stdout and stderr. *)
Definition output_lines (t : list event) : list string :=
  flat_map (fun ev => match ev with
                      | EvStdout s | EvStderr s => [s]
                      | _ => []
                      end) t.

(** The environment with [Command::status] answering [Ok(code)]. *)
Definition with_status (env : Env) (code : Z) : Env :=
  mkEnv (env_read_to_string env) (env_cache_dir env) (env_remove_dir_all env)
    (env_create_dir_all env) (env_set_current_dir env) (env_file_create env)
    (env_write_all env) (env_flush env) (env_rename env) (fun _ _ => Ok code).

(** ** Concrete environments and arguments for the examples *)

Definition enoent : IoError := mkIoError 2 NotFound "No such file or directory".
Definition eacces : IoError := mkIoError 13 PermissionDenied "Permission denied".

(** Only [a.txt] is readable; the runner exits with [status]; deleting the
    cache directory fails when [cleanup_fails]. *)
Definition test_env (status : Z) (cleanup_fails : bool) : Env :=
  mkEnv
    (fun p => if String.eqb p "a.txt" then Ok "const A: u32 = 1;" else Err enoent)
    (Some "/home/u/.cache")
    (fun p => if cleanup_fails && String.eqb p "/home/u/.cache/rust-timeit"
              then Err eacces else Ok tt)
    (fun _ => Ok tt) (fun _ => Ok tt) (fun _ => Ok tt) (fun _ _ => Ok tt)
    (fun _ => Ok tt) (fun _ _ => Ok tt) (fun _ _ => Ok status).

Definition test_raw (includes : list string) (cycles : bool) (perf_text : option string)
  (cleanup verbose : bool) : RawArgs :=
  mkRawArgs None [] [] includes cycles perf_text false false cleanup verbose ["1 + 1"].


(** The environment in which [dirs::cache_dir()] returns [None]. *)
Definition without_cache_dir (env : Env) : Env :=
  mkEnv (env_read_to_string env) None (env_remove_dir_all env)
    (env_create_dir_all env) (env_set_current_dir env) (env_file_create env)
    (env_write_all env) (env_flush env) (env_rename env) (env_status env).

(** A step that never ends the process through [process::exit] or a panic. *)
Definition no_exit {A} (m : M A) : Prop := forall c, fst m <> Exit c.

(** * Properties of the string operations *)

Lemma append_assoc_str (a b c : string) : (a ++ b) ++ c = a ++ (b ++ c).
Proof. induction a as [|x a IH]; simpl; [reflexivity | now rewrite IH]. Qed.

Lemma append_nil_str (a : string) : a ++ "" = a.
Proof. induction a as [|x a IH]; simpl; [reflexivity | now rewrite IH]. Qed.

Lemma has_char_cons_false (c d : ascii) (s : string) :
  has_char c (String d s) = false -> c <> d /\ has_char c s = false.
Proof.
  simpl; intros H; apply orb_false_iff in H as [H1 H2]; split; [|exact H2].
  intros ->; now rewrite Ascii.eqb_refl in H1.
Qed.

(** A byte absent from the pattern ends every candidate match. *)
Lemma prefix_app_sep (k x y : string) (c : ascii) :
  has_char c k = false -> prefix k (x ++ String c y) = prefix k x.
Proof.
  revert x; induction k as [|a k IH]; intros x Hc; [destruct x; reflexivity|].
  apply has_char_cons_false in Hc as [Hca Hk].
  destruct x as [|b x]; simpl.
  - destruct (ascii_dec a c); [congruence | reflexivity].
  - destruct (ascii_dec a b); [now apply IH | reflexivity].
Qed.

Lemma prefix_length (k x : string) :
  prefix k x = true -> String.length k <= String.length x.
Proof.
  revert x; induction k as [|a k IH]; intros x H; simpl; [lia|].
  destruct x as [|b x]; simpl in H; [discriminate|].
  destruct (ascii_dec a b); [apply IH in H; simpl; lia | discriminate].
Qed.

Section Replace.
Variables (k v : string).
Hypothesis k_nonempty : k <> EmptyString.

Lemma replace_from_0_cons (d : ascii) (s : string) :
  replace_from k v 0 (String d s) =
    if prefix k (String d s)
    then v ++ replace_from k v (pred (String.length k)) s
    else String d (replace_from k v 0 s).
Proof. reflexivity. Qed.

(** Replacing splits at any byte that does not occur in the pattern. *)
Lemma replace_from_split_gen (c : ascii) (b : string) :
  has_char c k = false ->
  forall a n, n <= String.length a ->
  replace_from k v n (a ++ String c b) =
    replace_from k v n a ++ String c (replace_from k v 0 b).
Proof.
  intros Hc a; induction a as [|d a IH]; intros n Hn.
  - simpl in Hn; assert (n = 0) as -> by lia; simpl.
    pose proof (prefix_app_sep k "" b c Hc) as E; simpl in E; rewrite E.
    destruct k as [|e k']; [congruence | reflexivity].
  - destruct n as [|n].
    + change (String d a ++ String c b) with (String d (a ++ String c b)).
      rewrite !replace_from_0_cons.
      replace (prefix k (String d (a ++ String c b))) with (prefix k (String d a))
        by (symmetry; exact (prefix_app_sep k (String d a) b c Hc)).
      destruct (prefix k (String d a)) eqn:Hp.
      * apply prefix_length in Hp; simpl in Hp.
        rewrite IH by lia; now rewrite append_assoc_str.
      * rewrite IH by lia; reflexivity.
    + simpl in Hn; apply IH; lia.
Qed.

Lemma replace_from_split (c : ascii) (a b : string) :
  has_char c k = false ->
  replace_from k v 0 (a ++ String c b) =
    replace_from k v 0 a ++ String c (replace_from k v 0 b).
Proof. intros Hc; apply replace_from_split_gen; [exact Hc | lia]. Qed.

Lemma last_char_snoc (t : string) (c : ascii) :
  last_char t = Some c -> exists t1, t = t1 ++ String c "".
Proof.
  induction t as [|d t IH]; simpl; [discriminate|].
  destruct t as [|e t].
  - intros [= ->]; now exists "".
  - intros H; destruct (IH H) as [t1 ->]; now exists (String d t1).
Qed.

(** A guarded separator is never straddled by a match. *)
Lemma replace_from_guarded (a t b : string) :
  guarded k t = true ->
  replace_from k v 0 (a ++ t ++ b) =
    replace_from k v 0 a ++ replace_from k v 0 t ++ replace_from k v 0 b.
Proof.
  unfold guarded; destruct t as [|c t0]; [discriminate|].
  destruct (last_char (String c t0)) as [c'|] eqn:Hl; [|discriminate].
  intros H; apply andb_true_iff in H as [H1 H2].
  apply negb_true_iff in H1, H2.
  apply last_char_snoc in Hl as [t1 Ht1].
  assert (Econs : forall u, replace_from k v 0 (String c u) =
                            String c (replace_from k v 0 u))
    by (intros u; exact (replace_from_split c "" u H1)).
  assert (Etail : replace_from k v 0 (t0 ++ b) =
                  replace_from k v 0 t0 ++ replace_from k v 0 b).
  { destruct t1 as [|d t1].
    - injection Ht1 as -> ->; reflexivity.
    - injection Ht1 as -> ->.
      rewrite append_assoc_str; change (String c' "" ++ b) with (String c' b).
      rewrite (replace_from_split c' t1 b H2), (replace_from_split c' t1 "" H2).
      change (replace_from k v 0 "") with "".
      rewrite append_assoc_str; reflexivity. }
  change (String c t0 ++ b) with (String c (t0 ++ b)).
  rewrite (replace_from_split c a (t0 ++ b) H1), Econs, Etail.
  reflexivity.
Qed.

(** Substituting into a template whose separators are all guarded acts
    slot by slot and on the template text separately. *)
Lemma replace_from_fill (t0 : string) (rest : list (string * string)) :
  guarded k t0 = true ->
  forallb (fun xt => guarded k (snd xt)) rest = true ->
  replace_from k v 0 (fill t0 rest) =
    fill (replace_from k v 0 t0)
      (map (fun xt => (replace_from k v 0 (fst xt), replace_from k v 0 (snd xt))) rest).
Proof.
  intros H0 Hr; unfold fill.
  set (R := fold_right _ _ rest).
  assert (E : replace_from k v 0 (t0 ++ R) =
              replace_from k v 0 t0 ++ replace_from k v 0 R)
    by exact (replace_from_guarded "" t0 R H0).
  rewrite E; f_equal; subst R; clear E H0 t0.
  induction rest as [|[x t] rest IH]; cbn [fold_right map fst snd forallb] in *;
    [reflexivity|].
  apply andb_true_iff in Hr as [Ht Hr].
  rewrite (replace_from_guarded x t _ Ht), IH; [reflexivity | exact Hr].
Qed.
End Replace.

Lemma str_replace_nonempty (s k v : string) :
  k <> EmptyString -> str_replace s k v = replace_from k v 0 s.
Proof. destruct k; [congruence | reflexivity]. Qed.

Lemma replace_from_skip_all (k v s : string) :
  replace_from k v (String.length s) s = EmptyString.
Proof. induction s as [|c s IH]; simpl; [reflexivity | exact IH]. Qed.

Lemma prefix_refl (k : string) : prefix k k = true.
Proof.
  induction k as [|c k IH]; simpl; [reflexivity|].
  destruct (ascii_dec c c); [exact IH | congruence].
Qed.

(** The marker itself is replaced by the value. *)
Lemma replace_from_self (k v : string) :
  k <> EmptyString -> replace_from k v 0 k = v.
Proof.
  destruct k as [|c k]; [congruence|]; intros _.
  rewrite replace_from_0_cons, prefix_refl; simpl.
  now rewrite replace_from_skip_all, append_nil_str.
Qed.

(** Closed pieces of text that contain no match are left as they are. *)
Ltac closed_text s :=
  lazymatch s with
  | String _ _ => idtac
  | EmptyString => idtac
  | _ => is_const s
  end.

Ltac const_replace :=
  repeat match goal with
  | |- context [replace_from ?k ?v 0 ?s] =>
      closed_text s;
      let H := fresh in
      assert (H : replace_from k v 0 s = s) by reflexivity;
      rewrite H; clear H
  end.

Ltac subst_pass :=
  rewrite replace_from_fill by (discriminate || reflexivity);
  cbn [map fst snd];
  try rewrite replace_from_self by discriminate;
  const_replace.

Lemma TIMEIT_RS_fill :
  TIMEIT_RS =
  fill timeit_rs_sep0
    [("/*USES*/", timeit_rs_sep1); ("/*INCLUDES*/", timeit_rs_sep2);
     ("/*SETUP*/", timeit_rs_sep3); ("/*EXPRESSIONS*/", timeit_rs_sep4);
     ("/*TIMER*/", timeit_rs_sep5)].
Proof. reflexivity. Qed.

Lemma TIMEIT_EXPRESSION_fill :
  TIMEIT_EXPRESSION =
  fill expression_sep0
    [("/*BLACK_BOX*/", expression_sep1); ("/*EXPRESSION*/", expression_sep2)].
Proof. reflexivity. Qed.

(** One snippet: the wrapper (or nothing) and the expression text verbatim. *)
Lemma expand_spec (bb : bool) (e : string) :
  expand bb e =
  expression_sep0 ++ (if bb then "black_box" else "") ++ expression_sep1 ++
  e ++ expression_sep2.
Proof.
  unfold expand; rewrite TIMEIT_EXPRESSION_fill.
  rewrite !str_replace_nonempty by discriminate.
  subst_pass.
  destruct bb; subst_pass; unfold fill; cbn [fold_right fst snd];
    now rewrite append_nil_str.
Qed.

Lemma join_newline_terminated (f : string -> string) (l : list string) :
  l <> [] ->
  join "
" (map (fun x => f x ++ "
") l) =
  join ("
" ++ "
") (map f l) ++ "
".
Proof.
  unfold join; induction l as [|x l IH]; intros Hl; [congruence|].
  destruct l as [|y l]; [reflexivity|].
  change (String.concat "
" (map (fun x => f x ++ "
") (x :: y :: l)))
    with ((f x ++ "
") ++ "
" ++ String.concat "
" (map (fun x => f x ++ "
") (y :: l))).
  change (String.concat ("
" ++ "
") (map f (x :: y :: l)))
    with (f x ++ ("
" ++ "
") ++ String.concat ("
" ++ "
") (map f (y :: l))).
  rewrite IH by discriminate.
  now rewrite !append_assoc_str.
Qed.

(** * Properties of the monad and of the steps of [main] *)

Lemma Forall_bind {A B} (P : event -> Prop) (m : M A) (f : A -> M B) :
  Forall P (snd m) ->
  (forall a, fst m = Ret a -> Forall P (snd (f a))) ->
  Forall P (snd (bind m f)).
Proof.
  destruct m as [[a|e|c] t]; simpl; intros H1 H2; auto.
  specialize (H2 a eq_refl); destruct (f a) as [o' t']; simpl in *.
  apply Forall_app; split; assumption.
Qed.

Lemma bind_Ret {A B} (m : M A) (f : A -> M B) (a : A) :
  fst m = Ret a -> bind m f = (fst (f a), (snd m ++ snd (f a))%list).
Proof.
  destruct m as [o t]; simpl; intros ->; destruct (f a); reflexivity.
Qed.

Lemma bind_Exit {A B} (m : M A) (f : A -> M B) (c : Z) :
  fst m = Exit c -> bind m f = (Exit c, snd m).
Proof. destruct m as [o t]; simpl; intros ->; reflexivity. Qed.

Lemma bind_Fail {A B} (m : M A) (f : A -> M B) (e : IoError) :
  fst m = Fail e -> bind m f = (Fail e, snd m).
Proof. destruct m as [o t]; simpl; intros ->; reflexivity. Qed.

Lemma fst_bind_Ret {A B} (m : M A) (f : A -> M B) (b : B) :
  fst (bind m f) = Ret b -> exists a, fst m = Ret a /\ fst (f a) = Ret b.
Proof.
  destruct m as [[a|e|c] t]; simpl; try discriminate.
  destruct (f a) as [o t'] eqn:E; simpl; intros ->; exists a; now rewrite E.
Qed.

Lemma collect_m_ext {A B} (f g : A -> M B) (l : list A) :
  (forall x, f x = g x) -> collect_m f l = collect_m g l.
Proof.
  intros H; induction l as [|x l IH]; simpl; [reflexivity|].
  rewrite H, IH; reflexivity.
Qed.

(** [argh::from_env] only prints to stderr. *)
Lemma from_env_stderr (r : RawArgs) :
  Forall (fun ev => exists s, ev = EvStderr s) (snd (from_env r)).
Proof.
  unfold from_env, from_str; destruct (raw_perf r) as [s|]; [|constructor].
  destruct (String.eqb s "help"); [simpl; repeat constructor; eexists; reflexivity|].
  destruct (match_word s perf_mode_table); simpl; repeat constructor; eexists; reflexivity.
Qed.

Lemma from_env_Ret (r : RawArgs) (a : Args) :
  fst (from_env r) = Ret a ->
  exists p, a = args_of_raw r p /\
            match raw_perf r with None => p = None | Some _ => p <> None end.
Proof.
  unfold from_env, from_str; destruct (raw_perf r) as [s|].
  - destruct (String.eqb s "help"); [simpl; intros [=]|].
    destruct (match_word s perf_mode_table) as [m|]; simpl; [|intros [=]].
    intros H; inversion H; subst; exists (Some m); split; [reflexivity | discriminate].
  - simpl; intros H; inversion H; subst; exists None; split; reflexivity.
Qed.

Lemma from_env_not_Fail (r : RawArgs) (e : IoError) : fst (from_env r) <> Fail e.
Proof.
  unfold from_env, from_str; destruct (raw_perf r) as [s|]; [|simpl; discriminate].
  destruct (String.eqb s "help"); [simpl; discriminate|].
  destruct (match_word s perf_mode_table); simpl; discriminate.
Qed.

Lemma from_env_Exit (r : RawArgs) (c : Z) : fst (from_env r) = Exit c -> c = 1%Z.
Proof.
  unfold from_env, from_str; destruct (raw_perf r) as [s|]; [|simpl; discriminate].
  destruct (String.eqb s "help"); [simpl; congruence|].
  destruct (match_word s perf_mode_table); simpl; congruence.
Qed.

Section Includes.
Variable env : Env.

Let read_step (filename : string) : M string :=
  syscall (EvReadFile filename) (env_read_to_string env filename).

Lemma collect_reads_ok (l : list string) (cs : list string) :
  Forall2 (fun f c => env_read_to_string env f = Ok c) l cs ->
  collect_m read_step l = (Ret cs, map EvReadFile l).
Proof.
  induction 1 as [|x c l cs Hx Hl IH]; [reflexivity|].
  cbn [collect_m]; unfold read_step at 1, syscall; rewrite Hx.
  cbn [bind]; fold read_step; rewrite IH; cbn [bind ret].
  now rewrite app_nil_r.
Qed.

Lemma collect_reads_fail (l : list string) (e : IoError) :
  fst (collect_m read_step l) = Fail e ->
  exists pre p post cs,
    l = (pre ++ p :: post)%list /\
    Forall2 (fun f c => env_read_to_string env f = Ok c) pre cs /\
    env_read_to_string env p = Err e /\
    snd (collect_m read_step l) = map EvReadFile (pre ++ [p]).
Proof.
  induction l as [|x l IH]; simpl; [discriminate|].
  unfold read_step at 1, syscall.
  destruct (env_read_to_string env x) as [c|e'] eqn:Hx; simpl.
  - fold read_step; destruct (collect_m read_step l) as [[ys|e''|k] t] eqn:Hl;
      simpl; try discriminate.
    intros [= ->].
    destruct IH as (pre & p & post & cs & -> & Hpre & Hp & Ht); [reflexivity|].
    exists (x :: pre), p, post, (c :: cs).
    split; [reflexivity|]; split; [constructor; assumption|]; split; [assumption|].
    unfold read_step, syscall; rewrite Hx; cbn [bind fst snd] in *.
    rewrite Ht; reflexivity.
  - intros [= ->]; exists [], x, l, [].
    split; [reflexivity|]; split; [apply Forall2_nil|]; split; [assumption|].
    unfold read_step, syscall; rewrite Hx; reflexivity.
Qed.

Lemma collect_reads_events (l : list string) :
  Forall (fun ev => exists p, ev = EvReadFile p) (snd (collect_m read_step l)).
Proof.
  induction l as [|x l IH]; cbn [collect_m]; [constructor|].
  apply Forall_bind; [|intros y _].
  - unfold read_step, syscall.
    destruct (env_read_to_string env x); repeat econstructor.
  - apply Forall_bind; [exact IH | intros ys _; constructor].
Qed.

(** On success the contents are joined with a newline, in order. *)
Lemma includes_ok (a : Args) (cs : list string) :
  Forall2 (fun f c => env_read_to_string env f = Ok c) (include a) cs ->
  Args_includes env a = (Ret (join "
" cs), map EvReadFile (include a)).
Proof.
  intros H; unfold Args_includes; fold read_step.
  rewrite (collect_reads_ok _ _ H); cbn [bind ret fst snd].
  now rewrite app_nil_r.
Qed.

(** A failure is the one of the first file that cannot be read, and no
    file after it is opened. *)
Lemma includes_fail (a : Args) (e : IoError) :
  fst (Args_includes env a) = Fail e ->
  exists pre p post cs,
    include a = (pre ++ p :: post)%list /\
    Forall2 (fun f c => env_read_to_string env f = Ok c) pre cs /\
    env_read_to_string env p = Err e /\
    snd (Args_includes env a) = map EvReadFile (pre ++ [p]).
Proof.
  unfold Args_includes; fold read_step.
  destruct (collect_m read_step (include a)) as [[ys|e'|k] t] eqn:Hc; simpl;
    try discriminate.
  intros [= ->]; destruct (collect_reads_fail (include a) e) as (pre & p & post & cs & H);
    [now rewrite Hc|].
  exists pre, p, post, cs; rewrite Hc in H; exact H.
Qed.

Lemma includes_events (a : Args) :
  Forall (fun ev => exists p, ev = EvReadFile p) (snd (Args_includes env a)).
Proof.
  unfold Args_includes; fold read_step.
  apply Forall_bind; [apply collect_reads_events | intros; constructor].
Qed.
End Includes.

Lemma includes_env_ext (env1 env2 : Env) (a : Args) :
  (forall f, env_read_to_string env1 f = env_read_to_string env2 f) ->
  Args_includes env1 a = Args_includes env2 a.
Proof.
  intros H; unfold Args_includes.
  rewrite (collect_m_ext _ (fun filename => syscall (EvReadFile filename)
                                  (env_read_to_string env2 filename)))
    by (intros x; now rewrite H).
  reflexivity.
Qed.

Lemma from_env_passive (r : RawArgs) :
  Forall (fun ev => passive ev = true) (snd (from_env r)).
Proof.
  eapply Forall_impl; [|apply from_env_stderr]; intros ev [s ->]; reflexivity.
Qed.

Lemma includes_passive (env : Env) (a : Args) :
  Forall (fun ev => passive ev = true) (snd (Args_includes env a)).
Proof.
  eapply Forall_impl; [|apply includes_events]; intros ev [p ->]; reflexivity.
Qed.

Lemma run_Exit (env : Env) (r : RawArgs) (c : Z) :
  fst (main_until_cleanup env r) = Exit c ->
  run env r = (snd (main_until_cleanup env r), c).
Proof. intros H; unfold run, main; rewrite (bind_Exit _ _ c H); reflexivity. Qed.

Lemma run_Fail (env : Env) (r : RawArgs) (e : IoError) :
  fst (main_until_cleanup env r) = Fail e ->
  run env r =
  ((snd (main_until_cleanup env r) ++ [EvStderr ("Error: " ++ debug_io_error e)])%list, 1%Z).
Proof. intros H; unfold run, main; rewrite (bind_Fail _ _ e H); reflexivity. Qed.

(** ** Text containment and the filled template *)

Lemma replace_from_absent (k v x : string) :
  contains k x = false -> replace_from k v 0 x = x.
Proof.
  induction x as [|c x IH]; intros H; [reflexivity|].
  cbn [contains] in H; apply orb_false_iff in H as [H1 H2].
  rewrite replace_from_0_cons, H1, IH by exact H2; reflexivity.
Qed.

Lemma create_data_absent (x : string) (l : list (string * string)) :
  Forall (fun kv => fst kv <> EmptyString /\ contains (fst kv) x = false) l ->
  create_data x l = x.
Proof.
  unfold create_data; induction 1 as [|[k v] l [Hk Hx] _ IH]; [reflexivity|].
  cbn [fold_left fst snd] in *.
  rewrite str_replace_nonempty, replace_from_absent by assumption; exact IH.
Qed.

Lemma create_source_fill (u i s e t : string) :
  create_data TIMEIT_RS
    [("/*USES*/", u); ("/*INCLUDES*/", i); ("/*SETUP*/", s);
     ("/*EXPRESSIONS*/", e); ("/*TIMER*/", t)] =
  fill timeit_rs_sep0
    [(create_data u [("/*INCLUDES*/", i); ("/*SETUP*/", s);
                     ("/*EXPRESSIONS*/", e); ("/*TIMER*/", t)], timeit_rs_sep1);
     (create_data i [("/*SETUP*/", s); ("/*EXPRESSIONS*/", e); ("/*TIMER*/", t)],
      timeit_rs_sep2);
     (create_data s [("/*EXPRESSIONS*/", e); ("/*TIMER*/", t)], timeit_rs_sep3);
     (create_data e [("/*TIMER*/", t)], timeit_rs_sep4);
     (t, timeit_rs_sep5)].
Proof.
  rewrite TIMEIT_RS_fill; unfold create_data; cbn [fold_left fst snd].
  rewrite !str_replace_nonempty by discriminate.
  do 5 subst_pass.
  reflexivity.
Qed.

Lemma contains_prefix_app (n a b : string) :
  prefix n a = true -> prefix n (a ++ b) = true.
Proof.
  revert a; induction n as [|c n IH]; intros a H; [destruct (a ++ b); reflexivity|].
  destruct a as [|d a]; simpl in H; [discriminate|]; simpl.
  destruct (ascii_dec c d); [exact (IH a H) | discriminate].
Qed.

Lemma contains_app_l (n a b : string) :
  contains n a = true -> contains n (a ++ b) = true.
Proof.
  induction a as [|c a IH]; intros H.
  - simpl in H; destruct n; [destruct b; reflexivity | discriminate].
  - simpl in H |- *; apply orb_true_iff in H as [H|H].
    + apply orb_true_iff; left; exact (contains_prefix_app n (String c a) b H).
    + apply orb_true_iff; right; exact (IH H).
Qed.

Lemma contains_app_r (n a b : string) :
  contains n b = true -> contains n (a ++ b) = true.
Proof.
  induction a as [|c a IH]; intros H; [exact H|].
  simpl; apply orb_true_iff; right; exact (IH H).
Qed.

Lemma contains_refl (n : string) : contains n n = true.
Proof. destruct n as [|c n]; [reflexivity|]; cbn [contains]; now rewrite prefix_refl. Qed.

Lemma contains_join (sep x : string) (l : list string) :
  In x l -> contains x (join sep l) = true.
Proof.
  unfold join; induction l as [|y l IH]; [intros []|].
  intros [->|H].
  - destruct l; [apply contains_refl | apply contains_app_l, contains_refl].
  - destruct l as [|z l]; [destruct H|].
    change (String.concat sep (y :: z :: l)) with (y ++ sep ++ String.concat sep (z :: l)).
    apply contains_app_r, contains_app_r, IH, H.
Qed.

Lemma Forall_syscall {A} (P : event -> Prop) (ev : event) (r : result A IoError) :
  P ev -> Forall P (snd (syscall ev r)).
Proof. destruct r; simpl; auto. Qed.

Ltac leaf := repeat constructor.

(** ** No file is read after the include files *)

Lemma cleanup_no_reads (env : Env) (a : Args) (base : string) :
  Forall (fun ev => is_read ev = false) (snd (cleanup_step env a base)).
Proof.
  unfold cleanup_step; destruct (cleanup a); [|constructor].
  apply Forall_bind; [leaf | intros ? _; apply Forall_syscall; leaf].
Qed.

Lemma create_no_reads (env : Env) (f t : string) (s : list (string * string)) :
  Forall (fun ev => is_read ev = false) (snd (create env f t s)).
Proof.
  unfold create; cbv zeta.
  do 3 (apply Forall_bind; [apply Forall_syscall; leaf | intros ? _]).
  apply Forall_syscall; leaf.
Qed.

(** Once the include files were read, [main] up to the [cargo] run reads
    nothing more. *)
Lemma main_until_cleanup_after_includes (env : Env) (r : RawArgs) (a : Args) (inc : string) :
  fst (from_env r) = Ret a ->
  expression a <> [] ->
  (cycles a && match perf a with Some _ => true | None => false end) = false ->
  fst (Args_includes env a) = Ret inc ->
  exists rest : list event,
    snd (main_until_cleanup env r) = (snd (from_env r) ++ snd (Args_includes env a) ++ rest)%list /\
    Forall (fun ev => is_read ev = false) rest.
Proof.
  intros Hf Hne Hconf Hi.
  unfold main_until_cleanup; rewrite (bind_Ret _ _ a Hf); cbn [fst snd].
  destruct (expression a) as [|x l]; [congruence|].
  rewrite Hconf, (bind_Ret _ _ inc Hi); cbn [snd].
  eexists; split; [reflexivity|].
  apply Forall_bind; [|intros cache _].
  { unfold cache_dir_expect; destruct (env_cache_dir env); simpl; leaf. }
  cbv zeta.
  apply Forall_bind; [destruct (verbose a); simpl; leaf | intros ? _].
  apply Forall_bind; [|intros ? _].
  { destruct (fresh a); [|constructor].
    apply Forall_bind; [leaf | intros ? _].
    unfold remove_dir_all; destruct (env_remove_dir_all env _) as [|e];
      [|destruct (kind e)]; leaf. }
  do 3 (apply Forall_bind; [apply Forall_syscall; leaf | intros ? _]).
  destruct (Args_dependencies a) as [deps args1].
  apply Forall_bind; [apply create_no_reads | intros ? _].
  destruct (Args_uses args1) as [u args3].
  apply Forall_bind; [apply create_no_reads | intros ? _].
  apply Forall_bind; [leaf | intros ? _].
  apply Forall_bind; [apply Forall_syscall; leaf | intros ? _; constructor].
Qed.

(** The cleanup step and the final error message read nothing. *)
Lemma run_after_main_until_cleanup (env : Env) (r : RawArgs) :
  exists tail : list event,
    fst (run env r) = (snd (main_until_cleanup env r) ++ tail)%list /\
    Forall (fun ev => is_read ev = false) tail.
Proof.
  unfold run, main.
  destruct (main_until_cleanup env r) as [[p|e|c] t]; cbn [bind fst snd].
  - pose proof (cleanup_no_reads env (fst p) (snd p)) as Hc.
    destruct (cleanup_step env (fst p) (snd p)) as [[u|e|c] t']; cbn [fst snd] in *.
    + exists t'; auto.
    + exists (t' ++ [EvStderr ("Error: " ++ debug_io_error e)])%list; split.
      * now rewrite app_assoc.
      * apply Forall_app; split; [exact Hc | leaf].
    + exists t'; auto.
  - exists [EvStderr ("Error: " ++ debug_io_error e)]; split; [reflexivity | leaf].
  - exists []; split; [now rewrite app_nil_r | constructor].
Qed.

(** * The claims *)

(** ** Template substitution *)

(** C4 (counterexample).  An expression containing the timer marker: the
    marker is inside the substituted expression block, and the later
    [/*TIMER*/] step replaces it in the generated source. *)
Lemma C4_marker_in_value_replaced :
  let a := args_of_raw
             (mkRawArgs None [] [] [] false None false false false false
                ["f(/*TIMER*/)"]) None in
  contains "/*TIMER*/" (Args_expressions a) = true /\
  contains "/*TIMER*/" (source_text a "") = false /\
  contains "f(WallTime)" (source_text a "") = true.
Proof. vm_compute; repeat split. Qed.

(** C4 (amended).  [create] runs one whole-text replacement per marker, in
    the order uses, includes, setup, expressions, timer.  The template text
    between the markers is kept and every slot receives its value, but each
    value is then rewritten by the steps that follow it: a later marker
    inside an earlier value is replaced as well, an earlier marker inside a
    later value is left alone. *)
Theorem create_source_sequential (u i s e t : string) :
  create_data TIMEIT_RS
    [("/*USES*/", u); ("/*INCLUDES*/", i); ("/*SETUP*/", s);
     ("/*EXPRESSIONS*/", e); ("/*TIMER*/", t)] =
  fill timeit_rs_sep0
    [(create_data u [("/*INCLUDES*/", i); ("/*SETUP*/", s);
                     ("/*EXPRESSIONS*/", e); ("/*TIMER*/", t)], timeit_rs_sep1);
     (create_data i [("/*SETUP*/", s); ("/*EXPRESSIONS*/", e); ("/*TIMER*/", t)],
      timeit_rs_sep2);
     (create_data s [("/*EXPRESSIONS*/", e); ("/*TIMER*/", t)], timeit_rs_sep3);
     (create_data e [("/*TIMER*/", t)], timeit_rs_sep4);
     (t, timeit_rs_sep5)].
Proof.
  rewrite TIMEIT_RS_fill; unfold create_data; cbn [fold_left fst snd].
  rewrite !str_replace_nonempty by discriminate.
  do 5 subst_pass.
  reflexivity.
Qed.

(** ** Snippet expansion *)

(** C5 (counterexample).  With [black_box] false the generated source
    still contains the token: the source template imports
    [criterion::black_box]. *)
Lemma C5_token_without_flag :
  let a := args_of_raw
             (mkRawArgs None [] [] [] false None false false false false
                ["1 + 1"]) None in
  black_box a = false /\ contains "black_box" (source_text a "") = true.
Proof. vm_compute; split; reflexivity. Qed.

(** C5 (amended).  Each snippet's black-box marker receives the token
    [black_box] when the flag is set and the empty text otherwise, and the
    expression text is copied verbatim; the source template itself names
    [black_box] in its [use criterion::{...}] line whatever the flag, so
    the generated benchmark source contains [black_box] for every set of
    arguments and every include text. *)
Theorem expressions_black_box_marker (a : Args) :
  Args_expressions a =
  join "
" (map (fun e => expression_sep0 ++ (if black_box a then "black_box" else "") ++
                    expression_sep1 ++ e ++ expression_sep2)
            (expression a)) /\
  contains "black_box" TIMEIT_RS = true /\
  (forall inc, contains "black_box" (source_text a inc) = true).
Proof.
  split; [|split; [reflexivity|]].
  - unfold Args_expressions; f_equal; apply map_ext; intros e; apply expand_spec.
  - intros inc; unfold source_text.
    destruct (Args_dependencies a) as [deps a1]; destruct (Args_uses a1) as [u a2].
    rewrite create_source_fill; unfold fill.
    apply contains_app_l; vm_compute; reflexivity.
Qed.

(** C6.  For a non-empty expression list the expression block holds one
    snippet per expression, in input order; every snippet ends in a newline
    and [join("\n")] puts a further newline between two snippets, so
    consecutive snippets are separated by a blank line. *)
Theorem expressions_one_snippet_each (a : Args) :
  expression a <> [] ->
  (forall e, expand (black_box a) e = snippet_body (black_box a) e ++ "
") /\
  Args_expressions a =
  join ("
" ++ "
") (map (snippet_body (black_box a)) (expression a)) ++ "
".
Proof.
  intros Hne.
  assert (Hs : forall e, expand (black_box a) e = snippet_body (black_box a) e ++ "
").
  { intros e; rewrite expand_spec; unfold snippet_body.
    now rewrite !append_assoc_str. }
  split; [exact Hs|].
  unfold Args_expressions.
  rewrite <- join_newline_terminated by exact Hne.
  f_equal; apply map_ext; exact Hs.
Qed.

(** ** Backend selection *)

(** C7.  Asking for [--cycles] together with any [--perf] value ends the
    process with status 1 after messages on stderr only: no directory is
    created, deleted or modified and nothing is run.  Without [--cycles] and
    [--perf] the measurement is [WallTime]. *)
Theorem cycles_perf_conflict_usage_error :
  (forall env r s,
     raw_cycles r = true -> raw_perf r = Some s ->
     snd (run env r) = 1%Z /\ Forall (fun ev => passive ev = true) (fst (run env r))) /\
  (forall a, cycles a = false -> perf a = None -> Args_timer a = "WallTime").
Proof.
  split.
  - intros env r s Hc Hp.
    assert (Hm : fst (main_until_cleanup env r) = Exit 1 /\
                 Forall (fun ev => passive ev = true) (snd (main_until_cleanup env r))).
    { unfold main_until_cleanup.
      destruct (fst (from_env r)) as [a|e|c] eqn:Hf.
      - rewrite (bind_Ret _ _ a Hf); cbn [fst snd].
        destruct (from_env_Ret r a Hf) as [p [-> Hp']]; rewrite Hp in Hp'.
        destruct p as [m|]; [|congruence].
        unfold args_of_raw; cbn [expression cycles perf]; rewrite Hc.
        destruct (raw_expression r); cbn; split; try reflexivity;
          apply Forall_app; split; try apply from_env_passive; repeat constructor.
      - exfalso; exact (from_env_not_Fail r e Hf).
      - rewrite (bind_Exit _ _ c Hf); cbn [fst snd].
        rewrite (from_env_Exit r c Hf); split; [reflexivity | apply from_env_passive]. }
    destruct Hm as [Hm Hpas]; rewrite (run_Exit env r 1 Hm); split; [reflexivity | exact Hpas].
  - intros a Hc Hp; unfold Args_timer; rewrite Hp, Hc; reflexivity.
Qed.

(** C8.  [--perf help] prints the header and every valid mode on stderr and
    exits with status 1 before anything else; any other text that names no
    mode is reported by argh and exits with status 1. *)
Theorem perf_help_lists_modes :
  (forall env r,
     raw_perf r = Some "help" ->
     run env r =
       (map EvStderr ("Valid values for --perf" :: map (fun w => "  " ++ w) all_modes), 1%Z) /\
     (forall m, exists w, In (m, w) perf_mode_table /\
                          In (EvStderr ("  " ++ w)) (fst (run env r)))) /\
  (forall env r s,
     raw_perf r = Some s -> s <> "help" -> match_word s perf_mode_table = None ->
     run env r =
       ([EvStderr ("Error parsing option '--perf' with value '" ++ s ++ "': Unknown perf mode")],
        1%Z)).
Proof.
  split.
  - intros env r Hp.
    assert (E : run env r =
       (map EvStderr ("Valid values for --perf" :: map (fun w => "  " ++ w) all_modes), 1%Z)).
    { unfold run, main, main_until_cleanup, from_env; rewrite Hp; reflexivity. }
    split; [exact E|]; rewrite E.
    intros m; destruct m; eexists; split; simpl; auto 20.
  - intros env r s Hp Hne Hw.
    unfold run, main, main_until_cleanup, from_env; rewrite Hp; unfold from_str.
    rewrite (proj2 (String.eqb_neq s "help") Hne), Hw; reflexivity.
Qed.

(** ** Include files *)

(** C3 (amended).  Once the arguments are valid, the include files are
    read first, in order.  If one cannot be read, the process has read
    exactly the files up to and including the first unreadable one, in
    order, and then stops with status 1 and the message
    [Error: <io error>], which carries no path; before that it has only
    read files and printed: no directory was created, deleted or modified.
    Otherwise the contents are joined in order with a newline, every
    include file has been read in order before anything else the run does
    after parsing, and no file is read after them. *)
Theorem includes_read_first (env : Env) (r : RawArgs) (a : Args) :
  fst (from_env r) = Ret a ->
  expression a <> [] ->
  (cycles a && match perf a with Some _ => true | None => false end) = false ->
  (forall e,
     fst (Args_includes env a) = Fail e ->
     exists pre p post cs,
       include a = (pre ++ p :: post)%list /\
       Forall2 (fun f c => env_read_to_string env f = Ok c) pre cs /\
       env_read_to_string env p = Err e /\
       run env r =
         ((snd (from_env r) ++ map EvReadFile (pre ++ [p]) ++
           [EvStderr ("Error: " ++ debug_io_error e)])%list, 1%Z) /\
       Forall (fun ev => passive ev = true) (fst (run env r))) /\
  (forall cs,
     Forall2 (fun f c => env_read_to_string env f = Ok c) (include a) cs ->
     fst (Args_includes env a) = Ret (join "
" cs) /\
     Forall (fun ev => passive ev = true) (snd (from_env r)) /\
     exists rest,
       fst (run env r) = (snd (from_env r) ++ map EvReadFile (include a) ++ rest)%list /\
       Forall (fun ev => is_read ev = false) rest).
Proof.
  intros Hf Hne Hconf; split.
  - intros e He.
    destruct (includes_fail env a e He) as (pre & p & post & cs & H1 & H2 & H3 & H4).
    assert (Hm : main_until_cleanup env r =
                 (Fail e, (snd (from_env r) ++ snd (Args_includes env a))%list)).
    { unfold main_until_cleanup; rewrite (bind_Ret _ _ a Hf); cbn [fst snd].
      destruct (expression a) as [|x l]; [congruence|].
      rewrite Hconf, (bind_Fail _ _ e He); reflexivity. }
    assert (Hrun : run env r =
       ((snd (from_env r) ++ map EvReadFile (pre ++ [p]) ++
         [EvStderr ("Error: " ++ debug_io_error e)])%list, 1%Z)).
    { rewrite (run_Fail env r e) by (rewrite Hm; reflexivity).
      rewrite Hm; cbn [snd]; now rewrite H4, app_assoc. }
    exists pre, p, post, cs; split; [exact H1|]; split; [exact H2|]; split; [exact H3|].
    split; [exact Hrun|].
    rewrite Hrun; cbn [fst].
    apply Forall_app; split; [apply from_env_passive|].
    apply Forall_app; split; [|repeat constructor].
    rewrite <- H4; apply includes_passive.
  - intros cs Hcs.
    pose proof (includes_ok env a cs Hcs) as Hi.
    split; [now rewrite Hi|]; split; [apply from_env_passive|].
    destruct (main_until_cleanup_after_includes env r a (join "
" cs) Hf Hne Hconf) as [rest [Hm Hrest]]; [now rewrite Hi|].
    destruct (run_after_main_until_cleanup env r) as [tail [Ht Htail]].
    exists (rest ++ tail)%list; split.
    + rewrite Ht, Hm, Hi; cbn [snd]; now rewrite <- !app_assoc.
    + apply Forall_app; split; assumption.
Qed.

(** ** What [main] writes and runs *)

(** One pass over [main]: every spawn is [cargo] with the fixed command
    line, every write is one of the generated artifacts. *)
Lemma main_events (env : Env) (r : RawArgs) :
  Forall (fun ev => spawn_ok (raw_verbose r) ev /\ write_ok env r ev) (snd (main env r)).
Proof.
  unfold main; apply Forall_bind; [|intros [a2 base] _].
  2: { unfold cleanup_step; cbn [fst snd]; destruct (cleanup a2); [|constructor].
       apply Forall_bind; [leaf | intros ? _; apply Forall_syscall; leaf]. }
  unfold main_until_cleanup; apply Forall_bind; [|intros a Ha].
  { eapply Forall_impl; [|apply from_env_stderr]; intros ev [s ->]; leaf. }
  destruct (expression a) as [|x l]; [simpl; leaf|].
  destruct (cycles a && _); [simpl; leaf|].
  apply Forall_bind; [|intros inc Hinc].
  { eapply Forall_impl; [|apply includes_events]; intros ev [p ->]; leaf. }
  apply Forall_bind; [|intros cache _].
  { unfold cache_dir_expect; destruct (env_cache_dir env); simpl; leaf. }
  cbv zeta.
  apply Forall_bind; [destruct (verbose a); simpl; leaf | intros ? _].
  apply Forall_bind; [|intros ? _].
  { destruct (fresh a); [|constructor].
    apply Forall_bind; [leaf | intros ? _].
    unfold remove_dir_all; destruct (env_remove_dir_all env _) as [|e];
      [|destruct (kind e)]; leaf. }
  do 3 (apply Forall_bind; [apply Forall_syscall; leaf | intros ? _]).
  destruct (Args_dependencies a) as [deps args1] eqn:Hd.
  assert (Hv1 : verbose args1 = verbose a)
    by (change args1 with (snd (deps, args1)); rewrite <- Hd; reflexivity).
  apply Forall_bind; [|intros ? _].
  { unfold create; cbv zeta.
    apply Forall_bind; [apply Forall_syscall; leaf | intros ? _].
    apply Forall_bind; [apply Forall_syscall | intros ? _].
    - split; [exact I|]; exists a, inc; repeat split; try assumption.
      left; split; [reflexivity|]; unfold manifest_text; rewrite Hd; reflexivity.
    - apply Forall_bind; [apply Forall_syscall; leaf | intros ? _].
      apply Forall_syscall; leaf. }
  destruct (Args_uses args1) as [u args3] eqn:Hu.
  assert (Hv3 : verbose args3 = verbose args1)
    by (change args3 with (snd (u, args3)); rewrite <- Hu; reflexivity).
  apply Forall_bind; [|intros ? _].
  { unfold create; cbv zeta.
    apply Forall_bind; [apply Forall_syscall; leaf | intros ? _].
    apply Forall_bind; [apply Forall_syscall | intros ? _].
    - split; [exact I|]; exists a, inc; repeat split; try assumption.
      right; split; [reflexivity|]; unfold source_text; rewrite Hd, Hu; reflexivity.
    - apply Forall_bind; [apply Forall_syscall; leaf | intros ? _].
      apply Forall_syscall; leaf. }
  apply Forall_bind; [leaf | intros ? _].
  apply Forall_bind; [apply Forall_syscall | intros ? _; constructor].
  split; [|exact I]; split; [reflexivity|].
  destruct (from_env_Ret r a Ha) as [p [-> _]].
  rewrite Hv3, Hv1; reflexivity.
Qed.

Lemma run_events (env : Env) (r : RawArgs) :
  Forall (fun ev => spawn_ok (raw_verbose r) ev /\ write_ok env r ev) (fst (run env r)).
Proof.
  pose proof (main_events env r) as H; unfold run.
  destruct (main env r) as [[u|e|c] t]; simpl in *; try exact H.
  apply Forall_app; split; [exact H | leaf].
Qed.

(** C9.  The two artifacts depend on nothing but the arguments and the
    include files' contents: two runs on the same arguments, in environments
    that answer the reads alike (whatever their cache directory, runner
    status or failures elsewhere), write byte-identical data to each path. *)
Theorem artifacts_deterministic (env1 env2 : Env) (r : RawArgs) (p d1 d2 : string) :
  (forall f, env_read_to_string env1 f = env_read_to_string env2 f) ->
  In (EvWriteAll p d1) (fst (run env1 r)) ->
  In (EvWriteAll p d2) (fst (run env2 r)) ->
  d1 = d2.
Proof.
  intros Hrd H1 H2.
  pose proof (proj1 (Forall_forall _ _) (run_events env1 r) _ H1) as [_ W1].
  pose proof (proj1 (Forall_forall _ _) (run_events env2 r) _ H2) as [_ W2].
  destruct W1 as (a1 & inc1 & Hf1 & Hi1 & C1).
  destruct W2 as (a2 & inc2 & Hf2 & Hi2 & C2).
  rewrite Hf1 in Hf2; injection Hf2 as <-.
  rewrite (includes_env_ext env1 env2 a1 Hrd), Hi2 in Hi1; injection Hi1 as <-.
  destruct C1 as [[-> ->] | [-> ->]]; destruct C2 as [[Hp ->] | [Hp ->]];
    try reflexivity; discriminate Hp.
Qed.

(** C10.  Whenever the runner is spawned it is [cargo] with exactly
    [bench --bench timeit -- --noplot], followed by [--verbose] after the
    [--] separator when the verbose flag is set. *)
Theorem cargo_command_line (env : Env) (r : RawArgs) (prog : string) (argv : list string) :
  In (EvSpawn prog argv) (fst (run env r)) ->
  prog = "cargo" /\
  argv = (["bench"; "--bench"; "timeit"; "--"; "--noplot"] ++
          (if raw_verbose r then ["--verbose"] else []))%list.
Proof.
  intros H.
  exact (proj1 (proj1 (Forall_forall _ _) (run_events env r) _ H)).
Qed.

(** C1 (code bug).  The runner's exit status is read by [status()?] and then
    dropped: the whole run is the same whatever status the runner returns.
    With the runner exiting with 101 the tool exits with 0. *)
Theorem runner_status_discarded :
  (forall env r c, run (with_status env c) r = run (with_status env 0) r) /\
  (In (EvSpawn "cargo" (bench_cmdline false))
      (fst (run (test_env 101 false) (test_raw [] false None false false))) /\
   env_status (test_env 101 false) "cargo" (bench_cmdline false) = Ok 101%Z /\
   snd (run (test_env 101 false) (test_raw [] false None false false)) = 0%Z).
Proof.
  split.
  - intros env r c; reflexivity.
  - vm_compute; split; [repeat (first [left; reflexivity | right]) | split; reflexivity].
Qed.

(** C2: a counterexample.  The run succeeds (status 0) when the cache
    directory can be deleted, and ends with status 1 when [--cleanup]
    cannot delete it. *)
Lemma C2_cleanup_failure_exit_1 :
  snd (run (test_env 0 false) (test_raw [] false None true false)) = 0%Z /\
  snd (run (test_env 0 true) (test_raw [] false None true false)) = 1%Z.
Proof. vm_compute; split; reflexivity. Qed.

(** C2 (amended).  After an otherwise successful run, [--cleanup] prints
    [Deleting cache directory.] and deletes the cache directory with [?]: a
    failure there is reported as [Error: <io error>] and the process exits
    with status 1. *)
Theorem cleanup_failure_exits_1 (env : Env) (r : RawArgs) (a : Args) (base : string)
  (e : IoError) :
  fst (main_until_cleanup env r) = Ret (a, base) ->
  cleanup a = true ->
  env_remove_dir_all env base = Err e ->
  run env r =
    ((snd (main_until_cleanup env r) ++
      [EvStdout "Deleting cache directory."; EvRemoveDirAll base;
       EvStderr ("Error: " ++ debug_io_error e)])%list, 1%Z).
Proof.
  intros Hm Hc Hr; unfold run, main.
  rewrite (bind_Ret _ _ (a, base) Hm); cbn [fst snd].
  unfold cleanup_step; cbn [fst snd]; rewrite Hc, Hr; simpl.
  now rewrite <- app_assoc.
Qed.

(** C3: a counterexample.  A missing [b.txt] and a missing [c.txt] give the
    same output, which never names [b.txt]; the status is 1. *)
Lemma C3_error_names_no_path :
  output_lines (fst (run (test_env 0 false) (test_raw ["a.txt"; "b.txt"] false None false false))) =
  output_lines (fst (run (test_env 0 false) (test_raw ["a.txt"; "c.txt"] false None false false))) /\
  forallb (fun s => negb (contains "b.txt" s))
    (output_lines (fst (run (test_env 0 false)
                            (test_raw ["a.txt"; "b.txt"] false None false false)))) = true /\
  output_lines (fst (run (test_env 0 false) (test_raw ["a.txt"; "b.txt"] false None false false))) <> [] /\
  snd (run (test_env 0 false) (test_raw ["a.txt"; "b.txt"] false None false false)) = 1%Z.
Proof. vm_compute; repeat split; try reflexivity; discriminate. Qed.

(** * Witnesses *)

Lemma expressions_one_snippet_each_witness :
  expression (args_of_raw (mkRawArgs None [] [] [] false None true false false false
                             ["1 + 1"; "x * 2"]) None) <> [] /\
  Args_expressions (args_of_raw (mkRawArgs None [] [] [] false None true false false false
                                   ["1 + 1"; "x * 2"]) None) =
  "    b.iter(|| black_box(1 + 1));

    b.iter(|| black_box(x * 2));
".
Proof.
  assert (H : expression (args_of_raw (mkRawArgs None [] [] [] false None true false false false
                                         ["1 + 1"; "x * 2"]) None) <> [])
    by discriminate.
  split; [exact H|].
  rewrite (proj2 (expressions_one_snippet_each _ H)).
  vm_compute; reflexivity.
Defined.

Lemma cycles_perf_conflict_usage_error_witness :
  raw_cycles (test_raw [] true (Some "instructions") false false) = true /\
  raw_perf (test_raw [] true (Some "instructions") false false) = Some "instructions" /\
  snd (run (test_env 0 false) (test_raw [] true (Some "instructions") false false)) = 1%Z /\
  Args_timer (args_of_raw (test_raw [] false None false false) None) = "WallTime".
Proof.
  split; [reflexivity|]; split; [reflexivity|]; split.
  - exact (proj1 (proj1 cycles_perf_conflict_usage_error (test_env 0 false)
                    (test_raw [] true (Some "instructions") false false) "instructions"
                    eq_refl eq_refl)).
  - exact (proj2 cycles_perf_conflict_usage_error
             (args_of_raw (test_raw [] false None false false) None) eq_refl eq_refl).
Defined.

Lemma perf_help_lists_modes_witness :
  raw_perf (test_raw [] false (Some "help") false false) = Some "help" /\
  snd (run (test_env 0 false) (test_raw [] false (Some "help") false false)) = 1%Z /\
  raw_perf (test_raw [] false (Some "cycle") false false) = Some "cycle" /\
  "cycle" <> "help" /\ match_word "cycle" perf_mode_table = None /\
  snd (run (test_env 0 false) (test_raw [] false (Some "cycle") false false)) = 1%Z.
Proof.
  assert (Hn : "cycle" <> "help") by discriminate.
  assert (Hw : match_word "cycle" perf_mode_table = None) by reflexivity.
  split; [reflexivity|]; split.
  - rewrite (proj1 (proj1 perf_help_lists_modes (test_env 0 false)
                       (test_raw [] false (Some "help") false false) eq_refl)).
    reflexivity.
  - split; [reflexivity|]; split; [exact Hn|]; split; [exact Hw|].
    rewrite (proj2 perf_help_lists_modes (test_env 0 false)
               (test_raw [] false (Some "cycle") false false) "cycle" eq_refl Hn Hw).
    reflexivity.
Defined.

Lemma includes_read_first_witness :
  run (test_env 0 false) (test_raw ["a.txt"; "b.txt"; "c.txt"] false None false false) =
    ([EvReadFile "a.txt"; EvReadFile "b.txt";
      EvStderr ("Error: " ++ debug_io_error enoent)], 1%Z) /\
  fst (Args_includes (test_env 0 false)
         (args_of_raw (test_raw ["a.txt"] false None false false) None)) =
    Ret "const A: u32 = 1;" /\
  exists rest,
    fst (run (test_env 0 false) (test_raw ["a.txt"] false None false false)) =
      EvReadFile "a.txt" :: rest /\
    Forall (fun ev => is_read ev = false) rest.
Proof.
  split.
  - assert (Hf : fst (from_env (test_raw ["a.txt"; "b.txt"; "c.txt"] false None false false)) =
      Ret (args_of_raw (test_raw ["a.txt"; "b.txt"; "c.txt"] false None false false) None))
      by reflexivity.
    assert (Hi : fst (Args_includes (test_env 0 false)
         (args_of_raw (test_raw ["a.txt"; "b.txt"; "c.txt"] false None false false) None))
         = Fail enoent) by (vm_compute; reflexivity).
    destruct (proj1 (includes_read_first (test_env 0 false) _ _ Hf
                       ltac:(discriminate) eq_refl) enoent Hi)
      as (pre & p & post & cs & H1 & H2 & H3 & H4 & _).
    rewrite H4; cbn [include args_of_raw test_raw] in H1.
    destruct pre as [|x1 [|x2 [|x3 pre]]]; cbn [app] in H1;
      inversion H1; subst.
    + discriminate H3.
    + reflexivity.
    + inversion H2 as [|? ? ? ? _ H5]; subst.
      inversion H5 as [|? ? ? ? H6 _]; discriminate H6.
    + destruct pre; discriminate.
  - assert (Hf : fst (from_env (test_raw ["a.txt"] false None false false)) =
      Ret (args_of_raw (test_raw ["a.txt"] false None false false) None))
      by reflexivity.
    assert (Hcs : Forall2 (fun f c => env_read_to_string (test_env 0 false) f = Ok c)
      (include (args_of_raw (test_raw ["a.txt"] false None false false) None))
      ["const A: u32 = 1;"]) by (repeat constructor).
    destruct (proj2 (includes_read_first (test_env 0 false) _ _ Hf
                       ltac:(discriminate) eq_refl) _ Hcs)
      as (Hi & _ & rest & Hr & Hrest).
    split; [exact Hi|]; exists rest; split; [exact Hr | exact Hrest].
Defined.

Lemma cleanup_failure_exits_1_witness :
  fst (main_until_cleanup (test_env 0 true) (test_raw [] false None true false)) =
    Ret (args_of_raw (test_raw [] false None true false) None, "/home/u/.cache/rust-timeit") /\
  snd (run (test_env 0 true) (test_raw [] false None true false)) = 1%Z.
Proof.
  assert (Hm : fst (main_until_cleanup (test_env 0 true) (test_raw [] false None true false)) =
    Ret (args_of_raw (test_raw [] false None true false) None, "/home/u/.cache/rust-timeit"))
    by (vm_compute; reflexivity).
  split; [exact Hm|].
  rewrite (cleanup_failure_exits_1 _ _ _ _ eacces Hm eq_refl eq_refl); reflexivity.
Defined.

Lemma artifacts_deterministic_witness :
  In (EvWriteAll "Cargo.toml.tmp" (manifest_text (args_of_raw (test_raw ["a.txt"] false None true false) None)))
     (fst (run (test_env 0 false) (test_raw ["a.txt"] false None true false))) /\
  In (EvWriteAll "Cargo.toml.tmp" (manifest_text (args_of_raw (test_raw ["a.txt"] false None true false) None)))
     (fst (run (test_env 101 true) (test_raw ["a.txt"] false None true false))) /\
  manifest_text (args_of_raw (test_raw ["a.txt"] false None true false) None) =
  manifest_text (args_of_raw (test_raw ["a.txt"] false None true false) None).
Proof.
  assert (H1 : In (EvWriteAll "Cargo.toml.tmp"
                     (manifest_text (args_of_raw (test_raw ["a.txt"] false None true false) None)))
     (fst (run (test_env 0 false) (test_raw ["a.txt"] false None true false))))
    by (vm_compute; repeat (first [left; reflexivity | right])).
  assert (H2 : In (EvWriteAll "Cargo.toml.tmp"
                     (manifest_text (args_of_raw (test_raw ["a.txt"] false None true false) None)))
     (fst (run (test_env 101 true) (test_raw ["a.txt"] false None true false))))
    by (vm_compute; repeat (first [left; reflexivity | right])).
  split; [exact H1|]; split; [exact H2|].
  exact (artifacts_deterministic (test_env 0 false) (test_env 101 true) _ _ _ _
           (fun f => eq_refl) H1 H2).
Defined.

Lemma cargo_command_line_witness :
  In (EvSpawn "cargo" (bench_cmdline true))
     (fst (run (test_env 0 false) (test_raw [] false None false true))) /\
  bench_cmdline true = ["bench"; "--bench"; "timeit"; "--"; "--noplot"; "--verbose"].
Proof.
  assert (H : In (EvSpawn "cargo" (bench_cmdline true))
     (fst (run (test_env 0 false) (test_raw [] false None false true))))
    by (vm_compute; repeat (first [left; reflexivity | right])).
  split; [exact H|].
  exact (proj2 (cargo_command_line _ _ _ _ H)).
Defined.

(** * Further properties of the code *)

(** ** Helpers *)

Lemma match_word_In (s : string) (m : PerfMode) (tbl : list (PerfMode * string)) :
  match_word s tbl = Some m -> In (m, s) tbl.
Proof.
  induction tbl as [|[m' w] tbl IH]; simpl; [discriminate|].
  destruct (String.eqb s w) eqn:E.
  - intros [= ->]; apply String.eqb_eq in E; subst; now left.
  - intros H; right; auto.
Qed.

Lemma perf_timer_inj (m m' : PerfMode) :
  "PerfMeasurement::new(PerfMode::" ++ as_perf_mode m ++ ")" =
  "PerfMeasurement::new(PerfMode::" ++ as_perf_mode m' ++ ")" -> m = m'.
Proof. destruct m, m'; simpl; intros H; first [reflexivity | discriminate H]. Qed.

Lemma fst_bind_Exit {A B} (m : M A) (f : A -> M B) (c : Z) :
  fst (bind m f) = Exit c ->
  fst m = Exit c \/ exists a, fst m = Ret a /\ fst (f a) = Exit c.
Proof.
  destruct m as [[a|e|c'] t]; simpl; try discriminate.
  - destruct (f a) as [o t'] eqn:E; simpl; intros ->; right; exists a; now rewrite E.
  - intros H; left; simpl; injection H as ->; reflexivity.
Qed.

Lemma syscall_Ret {A} (ev : event) (r : result A IoError) (a : A) :
  fst (syscall ev r) = Ret a -> r = Ok a.
Proof. destruct r; simpl; congruence. Qed.

Lemma no_exit_bind {A B} (m : M A) (f : A -> M B) :
  no_exit m -> (forall a, no_exit (f a)) -> no_exit (bind m f).
Proof.
  intros H1 H2 c; destruct m as [[a|e|c'] t]; simpl.
  - specialize (H2 a c); destruct (f a); exact H2.
  - discriminate.
  - intros [= Hc]; apply (H1 c); simpl; now rewrite Hc.
Qed.

Lemma no_exit_syscall {A} (ev : event) (r : result A IoError) : no_exit (syscall ev r).
Proof. intros c; destruct r; simpl; discriminate. Qed.

Lemma no_exit_create (env : Env) (f t : string) (s : list (string * string)) :
  no_exit (create env f t s).
Proof.
  unfold create; cbv zeta.
  repeat (apply no_exit_bind; [apply no_exit_syscall | intros _]).
  apply no_exit_syscall.
Qed.

Lemma no_exit_remove_dir_all (env : Env) (p : string) : no_exit (remove_dir_all env p).
Proof.
  intros c; unfold remove_dir_all.
  destruct (env_remove_dir_all env p) as [|e]; [|destruct (kind e)]; simpl; discriminate.
Qed.

Lemma no_exit_includes (env : Env) (a : Args) : no_exit (Args_includes env a).
Proof.
  unfold Args_includes; apply no_exit_bind; [|intros ? c; simpl; discriminate].
  induction (include a) as [|x l IH]; simpl; [intros c; discriminate|].
  apply no_exit_bind; [apply no_exit_syscall | intros y].
  apply no_exit_bind; [exact IH | intros ys c; simpl; discriminate].
Qed.

Lemma create_Ret (env : Env) (f t : string) (s : list (string * string)) :
  fst (create env f t s) = Ret tt <->
  env_file_create env (f ++ ".tmp") = Ok tt /\
  env_write_all env (f ++ ".tmp") (create_data t s) = Ok tt /\
  env_flush env (f ++ ".tmp") = Ok tt /\
  env_rename env (f ++ ".tmp") f = Ok tt.
Proof.
  unfold create; cbv zeta.
  destruct (env_file_create env (f ++ ".tmp")) as [[]|e1]; [|simpl; split; [discriminate | intros [H _]; discriminate H]].
  destruct (env_write_all env (f ++ ".tmp") (create_data t s)) as [[]|e2];
    [|simpl; split; [discriminate | intros [_ [H _]]; discriminate H]].
  destruct (env_flush env (f ++ ".tmp")) as [[]|e3];
    [|simpl; split; [discriminate | intros [_ [_ [H _]]]; discriminate H]].
  destruct (env_rename env (f ++ ".tmp") f) as [[]|e4];
    [|simpl; split; [discriminate | intros [_ [_ [_ H]]]; discriminate H]].
  simpl; split; auto.
Qed.

(** What a successful pass of [main] up to the runner has done. *)
Lemma main_until_cleanup_Ret (env : Env) (r : RawArgs) (p : Args * string) :
  fst (main_until_cleanup env r) = Ret p ->
  exists a inc cache,
    fst (from_env r) = Ret a /\ expression a <> [] /\
    (cycles a && match perf a with Some _ => true | None => false end) = false /\
    fst (Args_includes env a) = Ret inc /\
    env_cache_dir env = Some cache /\
    p = (snd (Args_uses (snd (Args_dependencies a))), path_push cache BASE_DIR) /\
    (fresh a = true -> fst (remove_dir_all env (path_push cache BASE_DIR)) = Ret tt) /\
    env_create_dir_all env (path_push cache BASE_DIR) = Ok tt /\
    env_set_current_dir env (path_push cache BASE_DIR) = Ok tt /\
    env_create_dir_all env "benches" = Ok tt /\
    fst (create env "Cargo.toml" CARGO_TOML
           [("@DEPENDENCIES@", fst (Args_dependencies a)); ("@BASE@", BASE)]) = Ret tt /\
    fst (create env ("benches/" ++ BASE ++ ".rs") TIMEIT_RS
           [("/*USES*/", fst (Args_uses (snd (Args_dependencies a))));
            ("/*INCLUDES*/", inc);
            ("/*SETUP*/", Args_setup (snd (Args_uses (snd (Args_dependencies a)))));
            ("/*EXPRESSIONS*/", Args_expressions (snd (Args_uses (snd (Args_dependencies a)))));
            ("/*TIMER*/", Args_timer (snd (Args_uses (snd (Args_dependencies a)))))]) = Ret tt /\
    (exists code, env_status env "cargo" (bench_cmdline (verbose a)) = Ok code).
Proof.
  unfold main_until_cleanup; intros H.
  apply fst_bind_Ret in H as [a [Hf H]].
  destruct (expression a) as [|x l] eqn:He; [cbv [bind eprintln exit fst] in H; discriminate|].
  destruct (cycles a && _) eqn:Hc; [cbv [bind eprintln exit fst] in H; discriminate|].
  apply fst_bind_Ret in H as [inc [Hi H]].
  apply fst_bind_Ret in H as [cache [Hcd H]].
  assert (Hcache : env_cache_dir env = Some cache).
  { unfold cache_dir_expect in Hcd; destruct (env_cache_dir env);
      cbv [bind eprintln exit ret fst] in Hcd; congruence. }
  cbv zeta in H.
  apply fst_bind_Ret in H as [u1 [_ H]].
  apply fst_bind_Ret in H as [u2 [Hfr H]].
  apply fst_bind_Ret in H as [[] [Hd1 H]]; apply syscall_Ret in Hd1.
  apply fst_bind_Ret in H as [[] [Hd2 H]]; apply syscall_Ret in Hd2.
  apply fst_bind_Ret in H as [[] [Hd3 H]]; apply syscall_Ret in Hd3.
  revert H; destruct (Args_dependencies a) as [deps a1] eqn:Hd; intros H.
  apply fst_bind_Ret in H as [[] [Hcargo H]].
  revert H; destruct (Args_uses a1) as [ut a2] eqn:Hu; intros H.
  apply fst_bind_Ret in H as [[] [Hsrc H]].
  apply fst_bind_Ret in H as [u7 [_ H]].
  apply fst_bind_Ret in H as [code [Hsp H]]; apply syscall_Ret in Hsp.
  cbv [ret fst] in H; injection H as <-.
  assert (Hv : verbose a2 = verbose a).
  { change a2 with (snd (ut, a2)); rewrite <- Hu.
    change a1 with (snd (deps, a1)); rewrite <- Hd; reflexivity. }
  exists a, inc, cache; cbn [fst snd]; rewrite Hd; cbn [fst snd]; rewrite Hu; cbn [fst snd].
  repeat split; try assumption; try congruence.
  - intros Hfresh; rewrite Hfresh in Hfr.
    apply fst_bind_Ret in Hfr as [? [_ Hfr]]; destruct u2; exact Hfr.
  - rewrite Hv in Hsp; exists code; exact Hsp.
Qed.

Lemma main_until_cleanup_Exit (env : Env) (r : RawArgs) (c : Z) :
  fst (main_until_cleanup env r) = Exit c -> c = 1%Z \/ c = 101%Z.
Proof.
  unfold main_until_cleanup; intros H.
  apply fst_bind_Exit in H as [H | [a [_ H]]]; [left; exact (from_env_Exit r c H)|].
  destruct (expression a) as [|x l];
    [cbv [bind eprintln exit fst] in H; injection H as <-; now left|].
  destruct (cycles a && _);
    [cbv [bind eprintln exit fst] in H; injection H as <-; now left|].
  apply fst_bind_Exit in H as [H | [inc [_ H]]]; [exfalso; exact (no_exit_includes env a c H)|].
  apply fst_bind_Exit in H as [H | [cache [_ H]]].
  { unfold cache_dir_expect in H; destruct (env_cache_dir env);
      cbv [bind eprintln exit ret fst] in H; [discriminate | injection H as <-; now right]. }
  exfalso; revert H; cbv zeta.
  apply no_exit_bind; [destruct (verbose a); intros ? ; simpl; discriminate | intros _].
  apply no_exit_bind.
  { destruct (fresh a); [|intros ?; simpl; discriminate].
    apply no_exit_bind; [intros ?; simpl; discriminate | intros _; apply no_exit_remove_dir_all]. }
  intros _.
  do 3 (apply no_exit_bind; [apply no_exit_syscall | intros _]).
  destruct (Args_dependencies a) as [deps a1].
  apply no_exit_bind; [apply no_exit_create | intros _].
  destruct (Args_uses a1) as [ut a2].
  apply no_exit_bind; [apply no_exit_create | intros _].
  apply no_exit_bind; [intros ?; simpl; discriminate | intros _].
  apply no_exit_bind; [apply no_exit_syscall | intros ? ?; simpl; discriminate].
Qed.

Lemma main_Exit (env : Env) (r : RawArgs) (c : Z) :
  fst (main env r) = Exit c -> c = 1%Z \/ c = 101%Z.
Proof.
  unfold main; intros H.
  apply fst_bind_Exit in H as [H | [p [_ H]]]; [exact (main_until_cleanup_Exit env r c H)|].
  exfalso; revert H; unfold cleanup_step; destruct (cleanup (fst p)); [|simpl; discriminate].
  apply no_exit_bind; [intros ?; simpl; discriminate | intros _; apply no_exit_syscall].
Qed.

(** ** Extras *)

(** [PerfMode::from_str] accepts exactly the words of the [perf_mode!]
    table: a word parses, silently, to its mode and to nothing else. *)
Theorem from_str_round_trip (s : string) (m : PerfMode) :
  from_str s = (Ret (Ok m), []) <-> In (m, s) perf_mode_table.
Proof.
  split.
  - unfold from_str; destruct (String.eqb s "help"); [discriminate|].
    destruct (match_word s perf_mode_table) as [m'|] eqn:E; [|discriminate].
    intros [= ->]; apply match_word_In; exact E.
  - simpl; intros H; repeat destruct H as [H|H];
      try (injection H as <- <-); try contradiction; reflexivity.
Qed.

(** The timer text names the backend: two argument sets with the same
    [Args::timer] select the same [--perf] mode, and without one the same
    [--cycles] setting.  With a mode, the mode alone decides the timer. *)
Theorem timer_determines_backend (a b : Args) :
  Args_timer a = Args_timer b ->
  perf a = perf b /\ (perf a = None -> cycles a = cycles b).
Proof.
  unfold Args_timer; destruct (perf a) as [m|], (perf b) as [m'|].
  - intros H; apply perf_timer_inj in H as ->; split; [reflexivity | discriminate].
  - destruct (cycles b); destruct m; intros H; discriminate H.
  - destruct (cycles a); destruct m'; intros H; discriminate H.
  - destruct (cycles a), (cycles b); intros H; try discriminate H; split; reflexivity.
Qed.

(** [create] never touches [filename] except by the final rename: every
    event is on [<filename>.tmp] or that rename, the rename is attempted
    only after the temporary file was created, written with the substituted
    template and flushed, and [create] succeeds exactly when all four calls
    do. *)
Theorem create_writes_tmp_then_renames (env : Env) (f t : string)
  (s : list (string * string)) :
  (forall ev, In ev (snd (create env f t s)) ->
     ev = EvCreateFile (f ++ ".tmp") \/ ev = EvWriteAll (f ++ ".tmp") (create_data t s) \/
     ev = EvFlush (f ++ ".tmp") \/ ev = EvRename (f ++ ".tmp") f) /\
  (In (EvRename (f ++ ".tmp") f) (snd (create env f t s)) ->
     env_file_create env (f ++ ".tmp") = Ok tt /\
     env_write_all env (f ++ ".tmp") (create_data t s) = Ok tt /\
     env_flush env (f ++ ".tmp") = Ok tt) /\
  (fst (create env f t s) = Ret tt <->
     env_file_create env (f ++ ".tmp") = Ok tt /\
     env_write_all env (f ++ ".tmp") (create_data t s) = Ok tt /\
     env_flush env (f ++ ".tmp") = Ok tt /\
     env_rename env (f ++ ".tmp") f = Ok tt).
Proof.
  split; [|split; [|exact (create_Ret env f t s)]];
    unfold create; cbv zeta;
    destruct (env_file_create env (f ++ ".tmp")) as [[]|e1];
    try destruct (env_write_all env (f ++ ".tmp") (create_data t s)) as [[]|e2];
    try destruct (env_flush env (f ++ ".tmp")) as [[]|e3];
    try destruct (env_rename env (f ++ ".tmp") f) as [[]|e4];
    simpl; intros;
    repeat match goal with
           | H : _ \/ _ |- _ => destruct H
           | H : False |- _ => destruct H
           end;
    subst; auto 10; try discriminate.
Qed.

(** The process exits with 0 only when every step succeeded: the
    arguments parsed, there was an expression and no backend conflict,
    every include file was read, the cache directory was known, (with
    [--fresh]) removed or absent, created and entered, [benches] created,
    both artifacts written to their temporary files with the generated
    texts and renamed into place, [cargo] started, and (with [--cleanup])
    the cache directory deleted. *)
Theorem exit_0_all_steps_succeeded (env : Env) (r : RawArgs) :
  snd (run env r) = 0%Z ->
  exists a inc cache,
    fst (from_env r) = Ret a /\ expression a <> [] /\
    (cycles a && match perf a with Some _ => true | None => false end) = false /\
    fst (Args_includes env a) = Ret inc /\
    env_cache_dir env = Some cache /\
    (fresh a = true -> fst (remove_dir_all env (path_push cache BASE_DIR)) = Ret tt) /\
    env_create_dir_all env (path_push cache BASE_DIR) = Ok tt /\
    env_set_current_dir env (path_push cache BASE_DIR) = Ok tt /\
    env_create_dir_all env "benches" = Ok tt /\
    env_write_all env "Cargo.toml.tmp" (manifest_text a) = Ok tt /\
    env_rename env "Cargo.toml.tmp" "Cargo.toml" = Ok tt /\
    env_write_all env "benches/timeit.rs.tmp" (source_text a inc) = Ok tt /\
    env_rename env "benches/timeit.rs.tmp" "benches/timeit.rs" = Ok tt /\
    (exists code, env_status env "cargo" (bench_cmdline (verbose a)) = Ok code) /\
    (cleanup a = true -> env_remove_dir_all env (path_push cache BASE_DIR) = Ok tt).
Proof.
  intros H0.
  assert (Hr : fst (main env r) = Ret tt).
  { revert H0; unfold run; destruct (main env r) as [[[]|e|c] t] eqn:Em; simpl;
      [reflexivity | discriminate | intros ->].
    destruct (main_Exit env r 0 ltac:(rewrite Em; reflexivity)); discriminate. }
  unfold main in Hr; apply fst_bind_Ret in Hr as [p [Hp Hc]].
  destruct (main_until_cleanup_Ret env r p Hp)
    as (a & inc & cache & Hf & He & Hconf & Hi & Hcd & -> & Hfr & H1 & H2 & H3 & Hcargo & Hsrc & Hsp).
  apply create_Ret in Hcargo as (_ & Hw1 & _ & Hn1).
  apply create_Ret in Hsrc as (_ & Hw2 & _ & Hn2).
  exists a, inc, cache; repeat split; try assumption.
  intros Hcl; unfold cleanup_step in Hc; cbn [fst snd] in Hc.
  change (cleanup (snd (Args_uses (snd (Args_dependencies a))))) with (cleanup a) in Hc.
  rewrite Hcl in Hc; apply fst_bind_Ret in Hc as [? [_ Hc]].
  apply syscall_Ret in Hc; exact Hc.
Qed.

(** With valid arguments, if [dirs::cache_dir()] gives nothing the
    [expect] panics: status 101 after the include files were read, with
    nothing created, deleted or modified and nothing run. *)
Theorem missing_cache_dir_panics (env : Env) (r : RawArgs) (a : Args) (inc : string) :
  fst (from_env r) = Ret a ->
  expression a <> [] ->
  (cycles a && match perf a with Some _ => true | None => false end) = false ->
  fst (Args_includes env a) = Ret inc ->
  env_cache_dir env = None ->
  snd (run env r) = 101%Z /\ Forall (fun ev => passive ev = true) (fst (run env r)).
Proof.
  intros Hf He Hconf Hi Hn.
  assert (Hm : main_until_cleanup env r =
               (Exit 101, (snd (from_env r) ++ snd (Args_includes env a) ++
                           [EvStderr "Could not determine cache directory"])%list)).
  { unfold main_until_cleanup; rewrite (bind_Ret _ _ a Hf); cbn [fst snd].
    destruct (expression a); [congruence|].
    rewrite Hconf, (bind_Ret _ _ inc Hi).
    unfold cache_dir_expect; rewrite Hn; reflexivity. }
  rewrite (run_Exit env r 101) by (rewrite Hm; reflexivity).
  rewrite Hm; split; [reflexivity|]; cbn [snd].
  apply Forall_app; split; [apply from_env_passive|].
  apply Forall_app; split; [apply includes_passive | repeat constructor].
Qed.

(** Without an expression the tool stops right after argument parsing,
    with status 1 and one message: no include file is read. *)
Theorem no_expression_exits_1 (env : Env) (r : RawArgs) (a : Args) :
  fst (from_env r) = Ret a ->
  expression a = [] ->
  run env r = ((snd (from_env r) ++ [EvStderr "Please specify at least one expression"])%list,
               1%Z).
Proof.
  intros Hf He.
  assert (Hm : main_until_cleanup env r =
               (Exit 1, (snd (from_env r) ++ [EvStderr "Please specify at least one expression"])%list)).
  { unfold main_until_cleanup; rewrite (bind_Ret _ _ a Hf); cbn [fst snd].
    rewrite He; reflexivity. }
  rewrite (run_Exit env r 1) by (rewrite Hm; reflexivity).
  rewrite Hm; reflexivity.
Qed.

(** With [--fresh], a failure to delete the cache directory other than
    [NotFound] ends the run with status 1 right there: before it only the
    include files were read and messages printed; the directory is not
    re-created, no file is written and [cargo] is not run. *)
Theorem fresh_removal_failure_stops (env : Env) (r : RawArgs) (a : Args) (inc cache : string)
  (e : IoError) :
  fst (from_env r) = Ret a ->
  expression a <> [] ->
  (cycles a && match perf a with Some _ => true | None => false end) = false ->
  fst (Args_includes env a) = Ret inc ->
  env_cache_dir env = Some cache ->
  fresh a = true ->
  env_remove_dir_all env (path_push cache BASE_DIR) = Err e ->
  kind e <> NotFound ->
  run env r =
    ((snd (from_env r) ++ snd (Args_includes env a) ++
      (if verbose a
       then [EvStdout ("Using cache directory " ++ quote ++ path_push cache BASE_DIR ++
                       quote ++ ".")]
       else []) ++
      [EvStdout "Deleting cache directory."; EvRemoveDirAll (path_push cache BASE_DIR);
       EvStderr ("Error: " ++ debug_io_error e)])%list, 1%Z).
Proof.
  intros Hf He Hconf Hi Hc Hfr Hrm Hk.
  assert (Hcd : fst (cache_dir_expect env) = Ret cache)
    by (unfold cache_dir_expect; rewrite Hc; reflexivity).
  assert (Hm : main_until_cleanup env r =
    (Fail e, (snd (from_env r) ++ snd (Args_includes env a) ++
      (if verbose a
       then [EvStdout ("Using cache directory " ++ quote ++ path_push cache BASE_DIR ++
                       quote ++ ".")]
       else []) ++
      [EvStdout "Deleting cache directory."; EvRemoveDirAll (path_push cache BASE_DIR)])%list)).
  { unfold main_until_cleanup; rewrite (bind_Ret _ _ a Hf); cbn [fst snd].
    destruct (expression a); [congruence|].
    rewrite Hconf, (bind_Ret _ _ inc Hi); cbn [fst snd].
    rewrite (bind_Ret _ _ cache Hcd); cbn [fst snd].
    unfold remove_dir_all, cache_dir_expect; rewrite Hc, Hfr, Hrm.
    destruct (kind e); [contradiction| | |]; destruct (verbose a); reflexivity. }
  rewrite (run_Fail env r e) by (rewrite Hm; reflexivity).
  rewrite Hm; cbn [snd]; rewrite <- !app_assoc; reflexivity.
Qed.

(** When no substituted value contains a marker handled after it, the
    generated source is [timeit.rs] with each marker replaced by its value
    and the text between the markers unchanged.  The pushes made by
    [dependencies()] and [uses()] leave the setup, the expressions and the
    timer as they were. *)
Theorem source_text_slots (a : Args) (inc : string) :
  (forall k, In k ["/*INCLUDES*/"; "/*SETUP*/"; "/*EXPRESSIONS*/"; "/*TIMER*/"] ->
     contains k (fst (Args_uses (snd (Args_dependencies a)))) = false) ->
  (forall k, In k ["/*SETUP*/"; "/*EXPRESSIONS*/"; "/*TIMER*/"] -> contains k inc = false) ->
  (forall k, In k ["/*EXPRESSIONS*/"; "/*TIMER*/"] -> contains k (Args_setup a) = false) ->
  contains "/*TIMER*/" (Args_expressions a) = false ->
  source_text a inc =
  fill timeit_rs_sep0
    [(fst (Args_uses (snd (Args_dependencies a))), timeit_rs_sep1);
     (inc, timeit_rs_sep2); (Args_setup a, timeit_rs_sep3);
     (Args_expressions a, timeit_rs_sep4); (Args_timer a, timeit_rs_sep5)].
Proof.
  intros Hu Hi Hs He.
  change (source_text a inc) with
    (create_data TIMEIT_RS
       [("/*USES*/", fst (Args_uses (snd (Args_dependencies a)))); ("/*INCLUDES*/", inc);
        ("/*SETUP*/", Args_setup a); ("/*EXPRESSIONS*/", Args_expressions a);
        ("/*TIMER*/", Args_timer a)]).
  rewrite create_source_fill.
  rewrite !create_data_absent;
    [reflexivity | ..];
    repeat constructor; cbn [fst];
    first [discriminate | exact He | apply Hu | apply Hi | apply Hs]; simpl; tauto.
Qed.

(** The backend is wired consistently: with a [--perf] mode the timer is
    that mode's [PerfMeasurement] and both the perf crate and its import
    are added; with [--cycles] alone the timer is [CyclesPerByte] and the
    cycles crate and its import are added; with neither the timer is
    [WallTime] and only the user's dependencies and imports appear. *)
Theorem backend_crate_and_import (a : Args) :
  (forall m, perf a = Some m ->
     Args_timer (snd (Args_uses (snd (Args_dependencies a)))) =
       "PerfMeasurement::new(PerfMode::" ++ as_perf_mode m ++ ")" /\
     contains PERF_DEP (fst (Args_dependencies a)) = true /\
     contains ("use " ++ PERF_USE ++ ";" ++ "
") (fst (Args_uses (snd (Args_dependencies a)))) = true) /\
  (cycles a = true -> perf a = None ->
     Args_timer (snd (Args_uses (snd (Args_dependencies a)))) = "CyclesPerByte" /\
     contains CYCLES_DEP (fst (Args_dependencies a)) = true /\
     contains ("use " ++ CYCLES_USE ++ ";" ++ "
") (fst (Args_uses (snd (Args_dependencies a)))) = true) /\
  (cycles a = false -> perf a = None ->
     Args_timer (snd (Args_uses (snd (Args_dependencies a)))) = "WallTime" /\
     fst (Args_dependencies a) = join "
" (dependency a) /\
     fst (Args_uses (snd (Args_dependencies a))) =
       join "" (map (fun import => "use " ++ import ++ ";" ++ "
") (uses a))).
Proof.
  unfold Args_dependencies, Args_uses, Args_timer; cbv zeta;
    cbn [fst snd perf cycles dependency uses set_uses set_dependency].
  split; [|split].
  - intros m Hp; rewrite Hp; split; [reflexivity|]; split.
    + apply contains_join, in_or_app; right; now left.
    + apply contains_join, in_map_iff; exists PERF_USE; split; [reflexivity|].
      apply in_or_app; right; now left.
  - intros Hc Hp; rewrite Hp, Hc; split; [reflexivity|]; split.
    + apply contains_join, in_or_app; right; now left.
    + apply contains_join, in_map_iff; exists CYCLES_USE; split; [reflexivity|].
      apply in_or_app; right; now left.
  - intros Hc Hp; rewrite Hp, Hc; split; [|split]; reflexivity.
Qed.

(** ** Witnesses of the extras *)

Lemma timer_determines_backend_witness :
  Args_timer (args_of_raw (test_raw [] true None false false) (Some Instructions)) =
  Args_timer (args_of_raw (test_raw [] false None false false) (Some Instructions)) /\
  perf (args_of_raw (test_raw [] true None false false) (Some Instructions)) =
  perf (args_of_raw (test_raw [] false None false false) (Some Instructions)).
Proof.
  assert (H : Args_timer (args_of_raw (test_raw [] true None false false) (Some Instructions)) =
              Args_timer (args_of_raw (test_raw [] false None false false) (Some Instructions)))
    by reflexivity.
  split; [exact H | exact (proj1 (timer_determines_backend _ _ H))].
Defined.

Lemma exit_0_all_steps_succeeded_witness :
  snd (run (test_env 0 false) (test_raw ["a.txt"] false None true false)) = 0%Z /\
  exists a, fst (from_env (test_raw ["a.txt"] false None true false)) = Ret a.
Proof.
  assert (H : snd (run (test_env 0 false) (test_raw ["a.txt"] false None true false)) = 0%Z)
    by (vm_compute; reflexivity).
  split; [exact H|].
  destruct (exit_0_all_steps_succeeded _ _ H) as (a & _ & _ & Hf & _).
  exists a; exact Hf.
Defined.

Lemma missing_cache_dir_panics_witness :
  env_cache_dir (without_cache_dir (test_env 0 false)) = None /\
  snd (run (without_cache_dir (test_env 0 false)) (test_raw ["a.txt"] false None false false)) =
    101%Z.
Proof.
  split; [reflexivity|].
  refine (proj1 (missing_cache_dir_panics (without_cache_dir (test_env 0 false))
                   (test_raw ["a.txt"] false None false false)
                   (args_of_raw (test_raw ["a.txt"] false None false false) None)
                   "const A: u32 = 1;" _ _ _ _ _)).
  - reflexivity.
  - discriminate.
  - reflexivity.
  - vm_compute; reflexivity.
  - reflexivity.
Defined.

Lemma no_expression_exits_1_witness :
  run (test_env 0 false) (mkRawArgs None [] [] ["b.txt"] false None false false false false []) =
  ([EvStderr "Please specify at least one expression"], 1%Z).
Proof.
  exact (no_expression_exits_1 (test_env 0 false)
           (mkRawArgs None [] [] ["b.txt"] false None false false false false [])
           (args_of_raw (mkRawArgs None [] [] ["b.txt"] false None false false false false []) None)
           eq_refl eq_refl).
Defined.

Lemma fresh_removal_failure_stops_witness :
  env_remove_dir_all (test_env 0 true) (path_push "/home/u/.cache" BASE_DIR) = Err eacces /\
  snd (run (test_env 0 true)
         (mkRawArgs None [] [] [] false None false true false true ["1 + 1"])) = 1%Z.
Proof.
  assert (Hrm : env_remove_dir_all (test_env 0 true) (path_push "/home/u/.cache" BASE_DIR) =
                Err eacces) by reflexivity.
  split; [exact Hrm|].
  rewrite (fresh_removal_failure_stops (test_env 0 true)
             (mkRawArgs None [] [] [] false None false true false true ["1 + 1"])
             (args_of_raw (mkRawArgs None [] [] [] false None false true false true ["1 + 1"]) None)
             "" "/home/u/.cache" eacces eq_refl ltac:(discriminate) eq_refl
             ltac:(vm_compute; reflexivity) eq_refl eq_refl Hrm ltac:(discriminate)).
  reflexivity.
Defined.

Lemma source_text_slots_witness :
  source_text (args_of_raw (test_raw [] true None false false) None) "const A: u32 = 1;" =
  fill timeit_rs_sep0
    [(fst (Args_uses (snd (Args_dependencies (args_of_raw (test_raw [] true None false false) None)))),
      timeit_rs_sep1);
     ("const A: u32 = 1;", timeit_rs_sep2);
     (Args_setup (args_of_raw (test_raw [] true None false false) None), timeit_rs_sep3);
     (Args_expressions (args_of_raw (test_raw [] true None false false) None), timeit_rs_sep4);
     (Args_timer (args_of_raw (test_raw [] true None false false) None), timeit_rs_sep5)].
Proof.
  apply source_text_slots;
    [intros k Hk; repeat destruct Hk as [<-|Hk]; try contradiction; vm_compute; reflexivity
    |intros k Hk; repeat destruct Hk as [<-|Hk]; try contradiction; vm_compute; reflexivity
    |intros k Hk; repeat destruct Hk as [<-|Hk]; try contradiction; vm_compute; reflexivity
    |vm_compute; reflexivity].
Defined.
